(** * The client-side data cache and the [useOptimizedData] hook

    A shallow embedding of [src/client/hooks/useOptimizedData.ts]:
    the [DataCache] class (a [Map<string, CacheEntry>] with time-to-live
    expiry) and the [useOptimizedData] React hook that wraps an injected
    asynchronous [fetchFn] with caching, a loading guard, rate limiting,
    an [AbortController] and retry with backoff.

    Conventions of the embedding:
    - times, durations and counters are JavaScript [number]s holding
      integers (milliseconds since the epoch); they are modelled in [Z];
    - every call of [Date.now()] is an explicit argument of the function
      that makes it;
    - the [Map] is a [gmap string _]: nothing below depends on the order
      of iteration;
    - [fetchData] is an [async] function: it is split at its only
      suspension point, [await fetchFn()], into [fetchData_begin] (the
      synchronous prefix) and [fetchData_settle] (the continuation);
    - [fetchData] is built by [useCallback] with [isLoading] and
      [retryCount] among its dependencies: a given [fetchData] function
      reads the values these two had in the render that created it.  Such
      a function is a [Closure]; the state cells themselves live in the
      [World] and are written by the setters. *)

From Stdlib Require Import ZArith Bool.
From stdpp Require Import gmap strings list fin_maps.

Open Scope Z_scope.

(** ** [String.prototype.includes]

    [includes key pattern] is [key.includes(pattern)]: [pattern] is a
    prefix of [key] or occurs further on in it. *)

Fixpoint includes (key pattern : string) : bool :=
  String.prefix pattern key ||
  match key with
  | EmptyString => false
  | String _ rest => includes rest pattern
  end.

(** ** class DataCache *)

Module DataCache.

Record CacheEntry (T : Type) : Type := mkEntry {
  data : T;
  timestamp : Z;
  expiresAt : Z
}.
Arguments mkEntry {T} _ _ _.
Arguments data {T} _.
Arguments timestamp {T} _.
Arguments expiresAt {T} _.

Definition DEFAULT_TTL : Z := 5 * 60 * 1000.

Section Methods.
Context {T : Type}.

(** [set(key, data, ttl = DEFAULT_TTL)]; [t_stamp] and [t_exp] are the
    two readings of [Date.now()], in the order of the object literal. *)
Definition set (key : string) (d : T) (ttl : option Z) (t_stamp t_exp : Z)
    (cache : gmap string (CacheEntry T)) : gmap string (CacheEntry T) :=
  <[key := mkEntry d t_stamp (t_exp + default DEFAULT_TTL ttl)]> cache.

(** [get(key)]: the result ([None] is [null]) and the map afterwards. *)
Definition get (now : Z) (key : string) (cache : gmap string (CacheEntry T))
    : option T * gmap string (CacheEntry T) :=
  match cache !! key with
  | None => (None, cache)
  | Some entry =>
      if now >? expiresAt entry
      then (None, delete key cache)
      else (Some (data entry), cache)
  end.

(** The loop of [invalidate(pattern)] over the entries of the map. *)
Definition invalidate_loop (pattern : string)
    (entries : list (string * CacheEntry T))
    (cache : gmap string (CacheEntry T)) : gmap string (CacheEntry T) :=
  foldl (fun acc kv => if includes (fst kv) pattern then delete (fst kv) acc else acc)
        cache entries.

(** [invalidate(pattern?)]: [!pattern] holds for [undefined] and for the
    empty string. *)
Definition invalidate (pattern : option string)
    (cache : gmap string (CacheEntry T)) : gmap string (CacheEntry T) :=
  match pattern with
  | None => ∅
  | Some EmptyString => ∅
  | Some p => invalidate_loop p (map_to_list cache) cache
  end.

(** The loop of [cleanup()] over the entries of the map. *)
Definition cleanup_loop (now : Z)
    (entries : list (string * CacheEntry T))
    (cache : gmap string (CacheEntry T)) : gmap string (CacheEntry T) :=
  foldl (fun acc kv => if now >? expiresAt (snd kv) then delete (fst kv) acc else acc)
        cache entries.

Definition cleanup (now : Z) (cache : gmap string (CacheEntry T))
    : gmap string (CacheEntry T) :=
  cleanup_loop now (map_to_list cache) cache.

(** The operations a client of the class can perform on the map. *)
Inductive Op : Type :=
| OpSet (key : string) (d : T) (ttl : option Z) (t_stamp t_exp : Z)
| OpGet (now : Z) (key : string)
| OpInvalidate (pattern : option string)
| OpCleanup (now : Z).

Definition apply (op : Op) (cache : gmap string (CacheEntry T))
    : gmap string (CacheEntry T) :=
  match op with
  | OpSet key d ttl t_stamp t_exp => set key d ttl t_stamp t_exp cache
  | OpGet now key => snd (get now key cache)
  | OpInvalidate pattern => invalidate pattern cache
  | OpCleanup now => cleanup now cache
  end.

End Methods.

End DataCache.

(** ** The hook [useOptimizedData] *)

Module useOptimizedData.

(** The [options] argument; [None] is a field left [undefined]. *)
Record Options : Type := mkOptions {
  ttl : option Z;
  refreshOnFocus : option bool;
  retryOnError : option bool;
  maxRetries : option Z
}.

(** What [fetchFn()] can throw: an [Error] with its [message], or any
    other value. *)
Inductive Thrown : Type :=
| ErrorObject (message : string)
| NotAnError.

(** [err instanceof Error ? err.message : "Unknown error"] *)
Definition errorMessage (err : Thrown) : string :=
  match err with
  | ErrorObject message => message
  | NotAnError => "Unknown error"
  end.

(** The values of [isLoading] and [retryCount] in the render whose
    [useCallback] created a [fetchData] function. *)
Record Closure : Type := mkClosure {
  seen_isLoading : bool;
  seen_retryCount : nat
}.

(** [setTimeout(() => fetchData(true), delay)]: the callback calls the
    [fetchData] of the render in which the scheduling function was
    created, that is the scheduling function itself. *)
Record Timer : Type := mkTimer {
  delay : Z;
  callback : Closure
}.

(** A call of [fetchData] suspended at [await fetchFn()]: its closure and
    its local [now].  [p_token] names the [AbortController] the call
    created; the source keeps no such local, the field only lets a
    statement say which controller belongs to which call. *)
Record Pending : Type := mkPending {
  p_closure : Closure;
  p_now : Z;
  p_token : nat
}.

Section Hook.
Context {T : Type}.

(** JavaScript truthiness of a payload, for [if (cached)]. *)
Variable truthy : T -> bool.

Variable key : string.
Variable options : Options.

(** The destructuring defaults of lines 73-78. *)
Definition opt_ttl : Z := default (5 * 60 * 1000) (ttl options).
Definition opt_refreshOnFocus : bool := default true (refreshOnFocus options).
Definition opt_retryOnError : bool := default true (retryOnError options).
Definition opt_maxRetries : Z := default 3 (maxRetries options).

(** The four [useState] cells. *)
Record State : Type := mkState {
  data : option T;
  isLoading : bool;
  error : option string;
  retryCount : nat
}.

(** Everything the hook instance reads and writes: its state cells, its
    two refs, the [AbortController]s created so far (their [aborted]
    flags), the module-level [globalCache], the number of [fetchFn()]
    invocations made and the timers set. *)
Record World : Type := mkWorld {
  state : State;
  lastFetchRef : Z;
  abortControllerRef : option nat;
  controllers : list bool;
  globalCache : gmap string (DataCache.CacheEntry T);
  fetchFn_calls : nat;
  timers : list Timer
}.

Definition initial : World :=
  mkWorld (mkState None false None 0%nat) 0 None [] ∅ 0%nat [].

(** The outcome of the awaited [fetchFn()]. *)
Inductive Outcome : Type :=
| Resolves (result : T)
| Rejects (err : Thrown).

(** How the promise returned by [fetchData] settles; [Fulfilled None] is
    a [return;]. *)
Inductive Completion : Type :=
| Fulfilled (value : option T)
| Rejected (err : Thrown).

(** The synchronous prefix of a call either returns or reaches the
    [await]. *)
Inductive Begin : Type :=
| Returned (value : option T)
| Awaiting (p : Pending).

(** *** Setters *)

Definition with_state (f : State -> State) (w : World) : World :=
  mkWorld (f (state w)) (lastFetchRef w) (abortControllerRef w) (controllers w)
          (globalCache w) (fetchFn_calls w) (timers w).

Definition setData (v : option T) : World -> World :=
  with_state (fun s => mkState v (isLoading s) (error s) (retryCount s)).

Definition setIsLoading (b : bool) : World -> World :=
  with_state (fun s => mkState (data s) b (error s) (retryCount s)).

Definition setError (e : option string) : World -> World :=
  with_state (fun s => mkState (data s) (isLoading s) e (retryCount s)).

(** [setRetryCount] takes an updater: [prev => prev + 1], or the constant
    updater for [setRetryCount(0)]. *)
Definition setRetryCount (f : nat -> nat) : World -> World :=
  with_state (fun s => mkState (data s) (isLoading s) (error s) (f (retryCount s))).

Definition set_lastFetchRef (t : Z) (w : World) : World :=
  mkWorld (state w) t (abortControllerRef w) (controllers w)
          (globalCache w) (fetchFn_calls w) (timers w).

Definition set_abortControllerRef (r : option nat) (w : World) : World :=
  mkWorld (state w) (lastFetchRef w) r (controllers w)
          (globalCache w) (fetchFn_calls w) (timers w).

Definition set_controllers (cs : list bool) (w : World) : World :=
  mkWorld (state w) (lastFetchRef w) (abortControllerRef w) cs
          (globalCache w) (fetchFn_calls w) (timers w).

Definition set_globalCache (c : gmap string (DataCache.CacheEntry T)) (w : World) : World :=
  mkWorld (state w) (lastFetchRef w) (abortControllerRef w) (controllers w)
          c (fetchFn_calls w) (timers w).

(** [fetchFn()] is invoked. *)
Definition call_fetchFn (w : World) : World :=
  mkWorld (state w) (lastFetchRef w) (abortControllerRef w) (controllers w)
          (globalCache w) (S (fetchFn_calls w)) (timers w).

Definition setTimeout (t : Timer) (w : World) : World :=
  mkWorld (state w) (lastFetchRef w) (abortControllerRef w) (controllers w)
          (globalCache w) (fetchFn_calls w) (timers w ++ [t]).

(** [if (abortControllerRef.current) abortControllerRef.current.abort()] *)
Definition abort_current (w : World) : World :=
  match abortControllerRef w with
  | Some c => set_controllers (<[c := true]> (controllers w)) w
  | None => w
  end.

(** [abortControllerRef.current = new AbortController()] *)
Definition new_AbortController (w : World) : World :=
  set_abortControllerRef (Some (length (controllers w)))
    (set_controllers (controllers w ++ [false]) w).

(** [signal.aborted] of controller [c]. *)
Definition aborted (c : nat) (w : World) : bool :=
  default false (controllers w !! c).

(** The closure that a render of the current state builds. *)
Definition render (w : World) : Closure :=
  mkClosure (isLoading (state w)) (retryCount (state w)).

(** *** [fetchData] *)

(** Lines 93-99: the cache is consulted unless [force]; the result is the
    truthy cached value, if any, and the world after [globalCache.get]. *)
Definition check_cache (force : bool) (now_get : Z) (w : World) : option T * World :=
  if force then (None, w)
  else
    let '(cached, c) := DataCache.get now_get key (globalCache w) in
    let w1 := set_globalCache c w in
    match cached with
    | Some v => if truthy v then (Some v, w1) else (None, w1)
    | None => (None, w1)
    end.

(** Lines 107-118, once the guards are passed: the state is set to
    loading, the previous controller is aborted, a new one is installed
    and [fetchFn()] is invoked. *)
Definition issue (w : World) : World :=
  let w1 := setError None (setIsLoading true w) in
  let w2 := new_AbortController (abort_current w1) in
  call_fetchFn w2.

(** Lines 90-118, up to the [await]: [now] is the reading of line 90 and
    [now_get] the one made inside [globalCache.get]. *)
Definition fetchData_begin (cl : Closure) (force : bool) (now now_get : Z)
    (w : World) : Begin * World :=
  match check_cache force now_get w with
  | (Some cached, w1) => (Returned (Some cached), setData (Some cached) w1)
  | (None, w1) =>
      if seen_isLoading cl && negb force then (Returned None, w1)
      else if negb force && (now - lastFetchRef w1 <? 1000) then (Returned None, w1)
      else (Awaiting (mkPending cl now (length (controllers w1))), issue w1)
  end.

(** Lines 137-140, the [finally] block. *)
Definition finally (w : World) : World :=
  set_abortControllerRef None (setIsLoading false w).

(** Lines 131-133: the retry count is bumped and the retry is scheduled,
    with the [retryCount] the closure saw as exponent. *)
Definition schedule_retry (cl : Closure) (w : World) : World :=
  setTimeout (mkTimer (2 ^ Z.of_nat (seen_retryCount cl) * 1000) cl)
    (setRetryCount S w).

(** Lines 118-140, from the [await] on: [t_stamp] and [t_exp] are the
    readings made inside [globalCache.set]. *)
Definition fetchData_settle (p : Pending) (out : Outcome) (t_stamp t_exp : Z)
    (w : World) : Completion * World :=
  match out with
  | Resolves result =>
      let w1 := setData (Some result) w in
      let w2 := set_globalCache
                  (DataCache.set key result (Some opt_ttl) t_stamp t_exp (globalCache w1)) w1 in
      let w3 := set_lastFetchRef (p_now p) w2 in
      let w4 := setRetryCount (fun _ => 0%nat) w3 in
      (Fulfilled (Some result), finally w4)
  | Rejects err =>
      let w1 := setError (Some (errorMessage err)) w in
      let w2 :=
        if opt_retryOnError && (Z.of_nat (seen_retryCount (p_closure p)) <? opt_maxRetries)
        then schedule_retry (p_closure p) w1
        else w1 in
      (Rejected err, finally w2)
  end.

(** *** The other operations of the hook *)

(** [refresh], built in the same render as [cl]. *)
Definition refresh (cl : Closure) (now : Z) (w : World) : Begin * World :=
  fetchData_begin cl true now now
    (set_globalCache (DataCache.invalidate (Some key) (globalCache w)) w).

Definition invalidate (w : World) : World :=
  setData None (set_globalCache (DataCache.invalidate (Some key) (globalCache w)) w).

(** The initial-load effect: [fetchData()]. *)
Definition initial_load (cl : Closure) (now now_get : Z) (w : World) : Begin * World :=
  fetchData_begin cl false now now_get w.

(** The focus effect; [now_probe] is the reading inside its own
    [globalCache.get]. *)
Definition on_focus (cl : Closure) (now_probe now now_get : Z) (w : World)
    : Begin * World :=
  if opt_refreshOnFocus then
    let '(cached, c) := DataCache.get now_probe key (globalCache w) in
    let w1 := set_globalCache c w in
    match cached with
    | Some v => if truthy v then (Returned None, w1)
                else fetchData_begin cl false now now_get w1
    | None => fetchData_begin cl false now now_get w1
    end
  else (Returned None, w).

(** The unmount cleanup. *)
Definition unmount (w : World) : World := abort_current w.

(** A timer fires: [fetchData(true)] through the closure that set it. *)
Definition fire (t : Timer) (now : Z) (w : World) : Begin * World :=
  fetchData_begin (callback t) true now now w.

(** The module-level [setInterval(() => globalCache.cleanup(), ...)]. *)
Definition sweep (now : Z) (w : World) : World :=
  set_globalCache (DataCache.cleanup now (globalCache w)) w.

(** *** A [fetchFn] that always rejects

    [fetchFn] rejects [n] times in a row.  The first call of [fetchData]
    is made through [cl] at [now]; each rejection arrives [latency] ms
    after its call; the timer set by a rejection fires [delay] ms after it
    was set, and the call it makes is the next one.  The run stops early
    when a call returns without fetching or a rejection sets no timer.

    The run follows the retry timers alone.  On a mounted hook the
    initial-load effect calls [fetchData()] as well after each
    rejection; those calls are not part of this run, they are followed
    in [HookRun.mounted_failing]. *)
Fixpoint always_failing (n : nat) (err : Thrown) (latency : Z)
    (cl : Closure) (force : bool) (now : Z) (w : World) : World :=
  match n with
  | O => w
  | S n' =>
      match fetchData_begin cl force now now w with
      | (Returned _, w1) => w1
      | (Awaiting p, w1) =>
          let t := now + latency in
          let w2 := snd (fetchData_settle p (Rejects err) t t w1) in
          match drop (length (timers w1)) (timers w2) with
          | tm :: _ => always_failing n' err latency (callback tm) true (t + delay tm) w2
          | [] => w2
          end
      end
  end.

End Hook.

Arguments State : clear implicits.
Arguments World : clear implicits.
Arguments Outcome : clear implicits.
Arguments Completion : clear implicits.
Arguments Begin : clear implicits.

End useOptimizedData.

(** ** Concrete instances used by the examples *)

Module Scenario.

(** Payloads are strings; the empty string is the falsy one. *)
Definition truthy (s : string) : bool := negb (String.eqb s EmptyString).

(** The key of the one call site of the hook. *)
Definition key : string := "user-meals".

(** [useOptimizedData(key, fetchFn)]: every option at its default. *)
Definition defaults : useOptimizedData.Options :=
  useOptimizedData.mkOptions None None None None.

(** A reading of [Date.now()]. *)
Definition t0 : Z := 1700000000000.

Definition boom : useOptimizedData.Thrown := useOptimizedData.ErrorObject "boom".

Section Runs.
Import useOptimizedData.

(** The hook as mounted, before its first effect runs. *)
Definition start : World string := initial.

Let fetchData_begin := fetchData_begin (T := string) truthy key.
Let fetchData_settle := fetchData_settle (T := string) key defaults.

(** Supersession.  [refresh()] is called on the mounted hook (request A);
    50 ms later, A's fetch still pending, [refresh()] is called again
    (request B).  B's fetch resolves with ["new"], then A's fetch
    resolves with ["old"].  The result: A's request, the world once B is
    issued, the world after B's result and the world after A's result. *)
Definition supersession
    : option (Pending * World string * World string * World string) :=
  match refresh truthy key (render start) t0 start with
  | (Awaiting pA, w1) =>
      match refresh truthy key (render w1) (t0 + 50) w1 with
      | (Awaiting pB, w2) =>
          let w3 := snd (fetchData_settle pB (Resolves "new") (t0 + 200) (t0 + 200) w2) in
          let w4 := snd (fetchData_settle pA (Resolves "old") (t0 + 300) (t0 + 300) w3) in
          Some (pA, w2, w3, w4)
      | _ => None
      end
  | _ => None
  end.

(** Mounting a focused screen: the initial-load effect and the focus
    effect run one after the other in the commit of the first render,
    both through the [fetchData] of that render. *)
Definition mount
    : (Begin string * World string) * (Begin string * World string) :=
  let cl := render start in
  let r1 := initial_load truthy key cl t0 t0 start in
  let r2 := on_focus truthy key defaults cl t0 t0 t0 (snd r1) in
  (r1, r2).

(** The initial load is issued and its fetch rejects 100 ms later. *)
Definition failed_load : option (Completion string * World string) :=
  match initial_load truthy key (render start) t0 t0 start with
  | (Awaiting p, w1) => Some (fetchData_settle p (Rejects boom) (t0 + 100) (t0 + 100) w1)
  | _ => None
  end.

(** One millisecond after the rejection of [failed_load], [fetchData()]
    is called through the closure of the render that follows it. *)
Definition request_after_failure
    : option (World string * (Begin string * World string)) :=
  match failed_load with
  | Some (_, w2) => Some (w2, fetchData_begin (render w2) false (t0 + 101) (t0 + 101) w2)
  | None => None
  end.

(** The initial load is issued and its fetch resolves 100 ms later. *)
Definition loaded : World string :=
  match initial_load truthy key (render start) t0 t0 start with
  | (Awaiting p, w1) =>
      snd (fetchData_settle p (Resolves "meals") (t0 + 100) (t0 + 100) w1)
  | (Returned _, w1) => w1
  end.

(** [invalidate()] is called on the loaded hook. *)
Definition loaded_then_invalidated : World string := invalidate key loaded.

(** Detach.  The initial load is issued, the consumer unmounts, and the
    fetch resolves afterwards.  The result: the request, the world after
    the unmount and the world after the fetch's result. *)
Definition detach : option (Pending * World string * World string) :=
  match initial_load truthy key (render start) t0 t0 start with
  | (Awaiting p, w1) =>
      let w2 := unmount w1 in
      Some (p, w2, snd (fetchData_settle p (Resolves "late") (t0 + 100) (t0 + 100) w2))
  | _ => None
  end.

(** [invalidate()] is called after the rejection of [failed_load]. *)
Definition invalidate_after_failure : option (World string) :=
  match failed_load with
  | Some (_, w2) => Some (invalidate key w2)
  | None => None
  end.

End Runs.

End Scenario.

(** ** The hook [useNetworkStatus] *)

Module useNetworkStatus.

Record NetworkState : Type := mkNetworkState {
  isConnected : bool;
  isInternetReachable : option bool;
  type : option string
}.

(** The two [useState] cells of the hook. *)
Record State : Type := mkState {
  networkState : NetworkState;
  isOnline : bool
}.

Definition initial : State := mkState (mkNetworkState true None None) true.

(** What the hook reads of a state handed out by NetInfo; [None] is
    [null]. *)
Module NetInfo.
Record State : Type := mkState {
  isConnected : option bool;
  isInternetReachable : option bool;
  type : string
}.
End NetInfo.

(** Web: [updateOnlineStatus], with the value of [navigator.onLine]. *)
Definition updateOnlineStatus (onLine : bool) (s : State) : State :=
  mkState (mkNetworkState onLine (Some onLine) (if onLine then Some "wifi" else None))
          onLine.

(** Native: the initial [fetch()] and the listener, with [?? false]. *)
Definition onNetInfo (n : NetInfo.State) (s : State) : State :=
  mkState (mkNetworkState (default false (NetInfo.isConnected n))
                          (NetInfo.isInternetReachable n)
                          (Some (NetInfo.type n)))
          (default false (NetInfo.isConnected n)).

(** Native: the [catch] branch, NetInfo not being available. *)
Definition onNetInfoUnavailable (s : State) : State :=
  mkState (mkNetworkState true (Some true) (Some "unknown")) true.

Inductive Event : Type :=
| BrowserStatus (onLine : bool)
| NetInfoState (n : NetInfo.State)
| NetInfoUnavailable.

Definition step (s : State) (e : Event) : State :=
  match e with
  | BrowserStatus onLine => updateOnlineStatus onLine s
  | NetInfoState n => onNetInfo n s
  | NetInfoUnavailable => onNetInfoUnavailable s
  end.

Definition run (events : list Event) : State := foldl step initial events.

Inductive Platform : Type := web | native.

(** [checkConnectivity]: on the web the value of [navigator.onLine]; on
    native the state fetched from NetInfo, [None] when importing or
    fetching throws. *)
Definition checkConnectivity (os : Platform) (onLine : bool)
    (fetched : option NetInfo.State) : bool :=
  match os with
  | web => onLine
  | native =>
      match fetched with
      | Some n => default false (NetInfo.isConnected n)
      | None => true
      end
  end.

(** One run of the [setInterval] callback of [waitForConnection], [now]
    being its reading of [Date.now()]: the value the promise is resolved
    with, if it is.  [connected] is [networkState.isConnected] as the
    render that built [waitForConnection] saw it. *)
Definition interval_tick (connected : bool) (timeout startTime now : Z) : option bool :=
  if connected then Some true
  else if now - startTime >? timeout then Some false
  else None.

(** The callback runs at each reading of [ticks] until it resolves the
    promise and clears the interval. *)
Fixpoint poll (connected : bool) (timeout startTime : Z) (ticks : list Z) : option bool :=
  match ticks with
  | [] => None
  | now :: rest =>
      match interval_tick connected timeout startTime now with
      | Some r => Some r
      | None => poll connected timeout startTime rest
      end
  end.

(** [waitForConnection(timeout = 10000)]: what the promise has been
    resolved with once the interval has run at [ticks]; [None] when it is
    still pending. *)
Definition waitForConnection (connected : bool) (timeout : option Z)
    (startTime : Z) (ticks : list Z) : option bool :=
  if connected then Some true
  else poll connected (default 10000 timeout) startTime ticks.

End useNetworkStatus.

(** ** The hook [useErrorHandler] *)

Module useErrorHandler.

(** The value given to [handleError].  [APIError] is a class of the API
    service; of its instances [handleError] reads [status], [message]
    and whether [retryable] is truthy. *)
Inductive Thrown : Type :=
| APIError (status : option Z) (message : string) (retryable : bool)
| Error (message : string)
| Other.

Inductive ButtonStyle : Type := Default | Cancel.

Record Button (Callback : Type) : Type := mkButton {
  text : string;
  onPress : option Callback;
  style : option ButtonStyle
}.
Arguments mkButton {Callback} _ _ _.
Arguments text {Callback} _.
Arguments onPress {Callback} _.
Arguments style {Callback} _.

(** The arguments of a call of [Alert.alert]; [buttons] is [None] when
    the call passes none. *)
Record Alert (Callback : Type) : Type := mkAlert {
  title : string;
  message : string;
  buttons : option (list (Button Callback))
}.
Arguments mkAlert {Callback} _ _ _.
Arguments title {Callback} _.
Arguments message {Callback} _.
Arguments buttons {Callback} _.

Section Handlers.
Context {Callback : Type}.

(** The translation function of [useTranslation]. *)
Variable t : string -> string.

(** The [switch] on [error.status]. *)
Definition status_message (status : option Z) (message : string) : string :=
  match status with
  | Some 401 => "Your session has expired. Please sign in again."
  | Some 403 => "You don't have permission to perform this action."
  | Some 404 => "The requested resource was not found."
  | Some 429 => "Too many requests. Please wait a moment and try again."
  | Some 500 => "Server error. Please try again later."
  | _ => message
  end.

(** [context || "unknown context"], the context named in the log line. *)
Definition logged_context (context : option string) : string :=
  match context with
  | Some (String a rest) => String a rest
  | _ => "unknown context"
  end.

(** [handleError(error, context?, onRetry?)]: the context it logs and
    the alert it shows. *)
Definition handleError (error : Thrown) (context : option string)
    (onRetry : option Callback) : string * Alert Callback :=
  let message :=
    match error with
    | APIError status message _ => status_message status message
    | Error message => message
    | Other => t "common.network_error"
    end in
  let ok := mkButton (t "common.ok") None (Some Default) in
  let buttons :=
    match onRetry, error with
    | Some retry, APIError _ _ true =>
        [mkButton (t "common.retry") (Some retry) (Some Default); ok]
    | _, _ => [ok]
    end in
  (logged_context context, mkAlert (t "common.error") message (Some buttons)).

Definition handleSuccess (message : string) : Alert Callback :=
  mkAlert (t "common.success") message None.

Definition handleWarning (message : string) (onConfirm : option Callback)
    : Alert Callback :=
  mkAlert (t "common.warning") message
    (Some [mkButton (t "common.cancel") None (Some Cancel);
           mkButton (t "common.continue") onConfirm None]).

End Handlers.

End useErrorHandler.

(** ** The component [OptimizedImage] *)

Module OptimizedImage.

(** An image source: an object [{uri}], which [!==] compares by identity
    ([ref] names the object), or the number of a bundled asset. *)
Inductive Source : Type :=
| Uri (ref : nat)
| Asset (n : Z).

(** [a === b] *)
Definition same (a b : Source) : bool :=
  match a, b with
  | Uri i, Uri j => Nat.eqb i j
  | Asset n, Asset m => Z.eqb n m
  | _, _ => false
  end.

(** Truthiness of a source: every object, every number but 0. *)
Definition truthy (a : Source) : bool :=
  match a with
  | Uri _ => true
  | Asset n => negb (Z.eqb n 0)
  end.

(** The props the handlers and [renderContent] read; for a callback
    prop, whether it is given. *)
Record Props : Type := mkProps {
  source : Source;
  fallbackSource : option Source;
  showLoader : option bool;
  showRetry : option bool;
  onLoadStart : bool;
  onLoadEnd : bool;
  onError : bool
}.

Record State : Type := mkState {
  isLoading : bool;
  hasError : bool;
  retryCount : nat;
  currentSource : Source
}.

(** The initial values of the four [useState] cells. *)
Definition initial (p : Props) : State := mkState true false 0 (source p).

(** A callback prop being called. *)
Inductive Call : Type := CallOnLoadStart | CallOnLoadEnd | CallOnError.

(** [callback?.()] *)
Definition optional_call (given : bool) (c : Call) : list Call :=
  if given then [c] else [].

Definition handleLoadStart (p : Props) (s : State) : State * list Call :=
  (mkState true false (retryCount s) (currentSource s),
   optional_call (onLoadStart p) CallOnLoadStart).

Definition handleLoad (p : Props) (s : State) : State * list Call :=
  (mkState false false (retryCount s) (currentSource s),
   optional_call (onLoadEnd p) CallOnLoadEnd).

(** [fallbackSource && currentSource !== fallbackSource && retryCount === 0] *)
Definition tries_fallback (p : Props) (s : State) : option Source :=
  match fallbackSource p with
  | Some f =>
      if truthy f && negb (same (currentSource s) f) && Nat.eqb (retryCount s) 0
      then Some f else None
  | None => None
  end.

Definition handleError (p : Props) (s : State) : State * list Call :=
  match tries_fallback p s with
  | Some f => (mkState true false 1 f, [])
  | None =>
      (mkState false true (retryCount s) (currentSource s),
       optional_call (onError p) CallOnError)
  end.

Definition handleRetry (p : Props) (s : State) : State * list Call :=
  (mkState true false (S (retryCount s)) (source p), []).

(** What [renderContent] shows: the error view, with or without its
    retry button, or the image, with or without the loader over it. *)
Inductive Content : Type :=
| ErrorView (retryButton : bool)
| ImageView (shown : Source) (loader : bool).

Definition renderContent (p : Props) (s : State) : Content :=
  if hasError s then ErrorView (default true (showRetry p))
  else ImageView (currentSource s) (isLoading s && default true (showLoader p)).

(** The events the component reacts to: the three of the [Image] and a
    press on the retry button. *)
Inductive Event : Type := LoadStart | Load | LoadError | RetryPressed.

Definition handle (p : Props) (e : Event) (s : State) : State * list Call :=
  match e with
  | LoadStart => handleLoadStart p s
  | Load => handleLoad p s
  | LoadError => handleError p s
  | RetryPressed => handleRetry p s
  end.

(** A run of the component in which a render takes place between any
    two events: each event comes with the props of the render whose
    handler receives it, and that handler's closure holds the state the
    previous event left. *)
Fixpoint run (events : list (Props * Event)) (s : State) : State :=
  match events with
  | [] => s
  | (p, e) :: rest => run rest (fst (handle p e s))
  end.

(** *** The handlers with their closures

    [handleError] is built by [useCallback] with [currentSource] and
    [retryCount] among its dependencies: it tests the values of the
    render that created it, [seen], while its setters write the state
    cells, [s].  The other three handlers read no state: [handleRetry]
    bumps [retryCount] through an updater. *)
Definition handleError_in (p : Props) (seen s : State) : State * list Call :=
  match tries_fallback p seen with
  | Some f => (mkState true false 1 f, [])
  | None =>
      (mkState false true (retryCount s) (currentSource s),
       optional_call (onError p) CallOnError)
  end.

Definition handle_in (p : Props) (e : Event) (seen s : State) : State * list Call :=
  match e with
  | LoadStart => handleLoadStart p s
  | Load => handleLoad p s
  | LoadError => handleError_in p seen s
  | RetryPressed => handleRetry p s
  end.

(** An event of a run: whether a render has taken place since the
    previous event, the props of the render whose handler receives the
    event, and the event. *)
Record Step : Type := mkStep {
  rendered : bool;
  props : Props;
  event : Event
}.

(** The state the handler of a step closes over: the current one when a
    render has just taken place, the one of the previous step
    otherwise. *)
Definition closure_of (st : Step) (seen s : State) : State :=
  if rendered st then s else seen.

(** A run of the component, [seen] being the state of the latest
    render. *)
Fixpoint run_in (steps : list Step) (seen s : State) : State :=
  match steps with
  | [] => s
  | st :: rest =>
      let seen' := closure_of st seen s in
      run_in rest seen' (fst (handle_in (props st) (event st) seen' s))
  end.

(** How many of the load errors of a run are answered by switching to
    the fallback source. *)
Fixpoint fallback_switches_in (steps : list Step) (seen s : State) : nat :=
  match steps with
  | [] => 0
  | st :: rest =>
      let seen' := closure_of st seen s in
      (match event st, tries_fallback (props st) seen' with
       | LoadError, Some _ => 1
       | _, _ => 0
       end
       + fallback_switches_in rest seen' (fst (handle_in (props st) (event st) seen' s)))%nat
  end.

End OptimizedImage.

(** ** More concrete instances *)

Module Cases.
Import useOptimizedData.

(** The initial load of the hook of [Scenario] resolves with the empty
    string, a falsy payload. *)
Definition loaded_empty : World string :=
  match initial_load Scenario.truthy Scenario.key (render Scenario.start)
          Scenario.t0 Scenario.t0 Scenario.start with
  | (Awaiting p, w1) =>
      snd (fetchData_settle Scenario.key Scenario.defaults p (Resolves EmptyString)
             (Scenario.t0 + 100) (Scenario.t0 + 100) w1)
  | (Returned _, w1) => w1
  end.

(** [{ retryOnError: false }] *)
Definition no_retry : Options := mkOptions None None (Some false) None.

(** The world in which the first rejection of [Scenario.failed_load] has
    happened. *)
Definition failed : World string :=
  match Scenario.failed_load with
  | Some (_, w) => w
  | None => Scenario.start
  end.

(** A screen showing a remote image with a bundled placeholder as
    fallback, as the history screen does. *)
Definition meal_image : OptimizedImage.Props :=
  OptimizedImage.mkProps (OptimizedImage.Uri 0) (Some (OptimizedImage.Asset 7))
    None None false false true.

End Cases.

(** ** Runs of a mounted hook *)

Module HookRun.
Import useOptimizedData.

Section Run.
Context {T : Type}.
Variable truthy : T -> bool.
Variable key : string.
Variable options : Options.

(** What can happen to a hook between its mount and its unmount: a call
    of [fetchData] through some closure, the fetch of a pending call
    settling, [refresh()], [invalidate()], the screen regaining focus, a
    retry timer firing, the sweep of the cache, and the unmount. *)
Inductive Action : Type :=
| Call (cl : Closure) (force : bool) (now now_get : Z)
| Settle (p : Pending) (out : Outcome T) (t_stamp t_exp : Z)
| Refresh (cl : Closure) (now : Z)
| Invalidate
| Focus (cl : Closure) (now_probe now now_get : Z)
| Fire (tm : Timer) (now : Z)
| Sweep (now : Z)
| Unmount.

Definition act (w : World T) (a : Action) : World T :=
  match a with
  | Call cl force now now_get => snd (fetchData_begin truthy key cl force now now_get w)
  | Settle p out t_stamp t_exp => snd (fetchData_settle key options p out t_stamp t_exp w)
  | Refresh cl now => snd (refresh truthy key cl now w)
  | Invalidate => invalidate key w
  | Focus cl now_probe now now_get =>
      snd (on_focus truthy key options cl now_probe now now_get w)
  | Fire tm now => snd (fire truthy key tm now w)
  | Sweep now => sweep now w
  | Unmount => unmount w
  end.

Definition run (actions : list Action) : World T := foldl act initial actions.

(** *** The initial-load effect

    [useEffect(() => { fetchData(); }, [fetchData])], lines 156-158.
    [fetchData] changes from a render to the next exactly when
    [isLoading] or [retryCount] have (the other dependencies of line 142
    being fixed for a mounted hook). *)
Definition same_closure (a b : Closure) : bool :=
  Bool.eqb (seen_isLoading a) (seen_isLoading b)
  && Nat.eqb (seen_retryCount a) (seen_retryCount b).

(** A render and the run of the effect after it.  [prev] is the
    [fetchData] of the previous render, [None] at mount.  The result:
    the [fetchData] of this render and what the effect's call did. *)
Definition render_effect (prev : option Closure) (now now_get : Z) (w : World T)
    : Closure * (Begin T * World T) :=
  let cl := render w in
  match prev with
  | Some old =>
      if same_closure old cl then (cl, (Returned None, w))
      else (cl, fetchData_begin truthy key cl false now now_get w)
  | None => (cl, fetchData_begin truthy key cl false now now_get w)
  end.

(** The renders that follow a change of state, until the hook is at
    rest: the effect of the first may issue a fetch, which sets
    [isLoading] and brings a second render, whose effect runs in turn.
    The result: the [fetchData] of the last render, the world, and the
    calls left pending. *)
Definition renders (prev : option Closure) (now now_get : Z) (w : World T)
    : Closure * World T * list Pending :=
  match render_effect prev now now_get w with
  | (cl1, (Returned _, w1)) => (cl1, w1, [])
  | (cl1, (Awaiting p1, w1)) =>
      match render_effect (Some cl1) now now_get w1 with
      | (cl2, (Returned _, w2)) => (cl2, w2, [p1])
      | (cl2, (Awaiting p2, w2)) => (cl2, w2, [p1; p2])
      end
  end.

(** A mounted hook whose [fetchFn] always rejects, no timer being left
    the time to fire: the renders that follow each change of state run
    the initial-load effect; the fetch it issues rejects [latency] ms
    later; [n] times over.  The run stops early when the renders leave
    no call pending. *)
Fixpoint mounted_failing (n : nat) (err : Thrown) (latency : Z)
    (prev : option Closure) (now : Z) (w : World T) : World T :=
  match n with
  | O => w
  | S n' =>
      match renders prev now now w with
      | (cl, w1, p :: _) =>
          let t := now + latency in
          mounted_failing n' err latency (Some cl) t
            (snd (fetchData_settle key options p (Rejects err) t t w1))
      | (cl, w1, []) => w1
      end
  end.

(** The hook between two fetches of a failing [fetchFn]: nothing cached
    under the key, not loading, the last successful fetch a second old
    at least, and the previous render, if any, one that saw the
    loading. *)
Definition at_rest (prev : option Closure) (now : Z) (w : World T) : Prop :=
  globalCache w !! key = None /\
  isLoading (state w) = false /\
  1000 <= now - lastFetchRef w /\
  (prev = None \/ exists old, prev = Some old /\ seen_isLoading old = true).

(** Every invocation of [fetchFn] has created one controller, and the
    current controller, if any, is one of those created. *)
Definition controllers_ok (w : World T) : Prop :=
  length (controllers w) = fetchFn_calls w /\
  forall c, abortControllerRef w = Some c -> (c < length (controllers w))%nat.

End Run.

End HookRun.

(** * Properties of [DataCache] *)

Section StringFacts.

Lemma prefix_refl (s : string) : String.prefix s s = true.
Proof.
  induction s as [|a s IH]; simpl; [reflexivity|].
  destruct (Ascii.ascii_dec a a); [exact IH | congruence].
Qed.

Lemma includes_refl (s : string) : includes s s = true.
Proof.
  destruct s as [|a s]; [reflexivity|].
  cbn [includes]. rewrite prefix_refl. reflexivity.
Qed.

End StringFacts.

Section ConditionalDelete.
Context {V : Type}.
Variable P : string * V -> bool.

(** Both loops of the class delete, from the map they iterate, the keys
    whose entry satisfies a test. *)
Lemma foldl_delete_lookup (l : list (string * V)) (c : gmap string V) (k : string) :
  foldl (fun acc kv => if P kv then delete (fst kv) acc else acc) c l !! k
  = if existsb (fun kv => bool_decide (fst kv = k) && P kv) l then None else c !! k.
Proof.
  revert c. induction l as [|[k' v] l IH]; intros c; simpl; [reflexivity|].
  rewrite IH. destruct (P (k', v)) eqn:HP.
  - case_bool_decide as Hk; simpl.
    + subst k'. rewrite lookup_delete_eq. destruct (existsb _ l); reflexivity.
    + rewrite lookup_delete_ne by exact Hk. reflexivity.
  - rewrite andb_false_r. reflexivity.
Qed.

Lemma foldl_delete_map_to_list (c : gmap string V) (k : string) :
  foldl (fun acc kv => if P kv then delete (fst kv) acc else acc) c (map_to_list c) !! k
  = match c !! k with
    | Some v => if P (k, v) then None else Some v
    | None => None
    end.
Proof.
  rewrite foldl_delete_lookup.
  destruct (c !! k) as [v|] eqn:Hc.
  - destruct (P (k, v)) eqn:HP.
    + replace (existsb _ _) with true; [reflexivity|].
      symmetry. apply existsb_exists. exists (k, v). split.
      * apply list_elem_of_In, elem_of_map_to_list. exact Hc.
      * simpl. rewrite bool_decide_eq_true_2 by reflexivity. exact HP.
    + destruct (existsb _ _) eqn:Hex; [|reflexivity].
      apply existsb_exists in Hex as [[k' v'] [Hin Hf]].
      apply andb_true_iff in Hf as [Hk HP']. apply bool_decide_eq_true_1 in Hk.
      simpl in Hk. subst k'.
      apply list_elem_of_In, elem_of_map_to_list in Hin.
      rewrite Hc in Hin. injection Hin as <-. congruence.
  - destruct (existsb _ _); reflexivity.
Qed.

End ConditionalDelete.

Section CacheFacts.
Context {T : Type}.
Implicit Types (c : gmap string (DataCache.CacheEntry T)) (k : string) (now : Z).

Lemma cleanup_lookup now c k :
  DataCache.cleanup now c !! k
  = match c !! k with
    | Some e => if now >? DataCache.expiresAt e then None else Some e
    | None => None
    end.
Proof.
  unfold DataCache.cleanup, DataCache.cleanup_loop.
  exact (foldl_delete_map_to_list (fun kv => now >? DataCache.expiresAt (snd kv)) c k).
Qed.

Lemma invalidate_loop_lookup (pattern : string) c k :
  DataCache.invalidate_loop pattern (map_to_list c) c !! k
  = match c !! k with
    | Some e => if includes k pattern then None else Some e
    | None => None
    end.
Proof.
  unfold DataCache.invalidate_loop.
  exact (foldl_delete_map_to_list (fun kv => includes (fst kv) pattern) c k).
Qed.

(** [invalidate(pattern)] removes every key that includes [pattern]. *)
Lemma invalidate_includes (pattern : string) k c :
  includes k pattern = true -> DataCache.invalidate (Some pattern) c !! k = None.
Proof.
  intros Hinc. unfold DataCache.invalidate.
  destruct pattern as [|a p]; [apply lookup_empty|].
  rewrite invalidate_loop_lookup, Hinc. destruct (c !! k); reflexivity.
Qed.

(** [invalidate(key)] removes [key] itself, whatever [key] is. *)
Lemma invalidate_key_gone k c : DataCache.invalidate (Some k) c !! k = None.
Proof. apply invalidate_includes, includes_refl. Qed.

(** The sweep keeps what has not expired: an entry swept at the very
    instant of its expiry is still there. *)
Lemma cleanup_keeps_unexpired now c k (e : DataCache.CacheEntry T) :
  c !! k = Some e -> now <= DataCache.expiresAt e ->
  DataCache.cleanup now c !! k = Some e.
Proof.
  intros Hk Hle. rewrite cleanup_lookup, Hk.
  destruct (Z.gtb_spec now (DataCache.expiresAt e)); [lia|reflexivity].
Qed.

(** No operation but [set] adds or changes an entry. *)
Lemma get_only_deletes now k c k' e :
  snd (DataCache.get now k c) !! k' = Some e -> c !! k' = Some e.
Proof.
  unfold DataCache.get. destruct (c !! k) as [e0|] eqn:Hk; simpl; [|auto].
  destruct (now >? DataCache.expiresAt e0); simpl; [|auto].
  intros H. apply lookup_delete_Some in H. tauto.
Qed.

Lemma cleanup_only_deletes now c k e :
  DataCache.cleanup now c !! k = Some e -> c !! k = Some e.
Proof.
  rewrite cleanup_lookup. destruct (c !! k) as [e0|]; [|discriminate].
  destruct (now >? DataCache.expiresAt e0); congruence.
Qed.

Lemma invalidate_only_deletes (pattern : option string) c k e :
  DataCache.invalidate pattern c !! k = Some e -> c !! k = Some e.
Proof.
  unfold DataCache.invalidate.
  destruct pattern as [[|a p]|]; try (rewrite lookup_empty; discriminate).
  rewrite invalidate_loop_lookup. destruct (c !! k) as [e0|]; [|discriminate].
  destruct (includes k (String a p)); congruence.
Qed.

End CacheFacts.

Section CacheClaims.
Context {T : Type}.
Implicit Types (c : gmap string (DataCache.CacheEntry T)) (k : string) (v : T).

(** C4 - TTL correctness.  For every positive ttl (given, or the default
    when the argument is left out), a value stored at a time [t] is what
    [get] returns at every query time of the closed interval
    [[t, t + ttl]], and [get] returns [null] at every query time after
    [t + ttl].  [t] is the reading of the clock from which [set] computes
    the expiry; the reading kept as [timestamp] plays no part. *)
Theorem get_after_set_ttl c k v (ttl : option Z) (t_stamp t now : Z) :
  0 < default DataCache.DEFAULT_TTL ttl ->
  (t <= now <= t + default DataCache.DEFAULT_TTL ttl ->
     fst (DataCache.get now k (DataCache.set k v ttl t_stamp t c)) = Some v) /\
  (t + default DataCache.DEFAULT_TTL ttl < now ->
     fst (DataCache.get now k (DataCache.set k v ttl t_stamp t c)) = None).
Proof.
  intros _. unfold DataCache.get, DataCache.set.
  rewrite lookup_insert_eq. cbn [DataCache.expiresAt DataCache.data].
  split; intros H.
  - destruct (Z.gtb_spec now (t + default DataCache.DEFAULT_TTL ttl)); [lia|reflexivity].
  - destruct (Z.gtb_spec now (t + default DataCache.DEFAULT_TTL ttl)); [reflexivity|lia].
Qed.

(** C10 - [get] evicts on read.  When the entry under [k] has expired
    ([now > expiresAt]), [get] returns [null] and the map it leaves has
    lost the key: no sweep is needed. *)
Theorem get_evicts_expired c k (e : DataCache.CacheEntry T) (now : Z) :
  c !! k = Some e ->
  now > DataCache.expiresAt e ->
  DataCache.get now k c = (None, delete k c) /\
  snd (DataCache.get now k c) !! k = None /\
  k ∉ dom (snd (DataCache.get now k c)).
Proof.
  intros Hk Hexp. unfold DataCache.get. rewrite Hk.
  destruct (Z.gtb_spec now (DataCache.expiresAt e)); [|lia].
  cbn [snd]. split; [reflexivity|]. split.
  - apply lookup_delete_eq.
  - apply not_elem_of_dom, lookup_delete_eq.
Qed.

(** C9, as amended - the sweep.  After [cleanup()] run at [now]: every
    entry that had expired ([now > expiresAt]) is out of the key set;
    every entry left was there before and has [now <= expiresAt]; every
    entry with [now <= expiresAt] is left.  So an entry written by [set]
    is out of the key set when its expiry [t + ttl] lies before [now] (a
    past expiry, or a ttl of 0 set before [now]), and is still in the map
    when [now <= t + ttl]: a sweep in the very millisecond of a [set]
    with a ttl of 0 keeps the entry. *)
Theorem cleanup_removes_expired c (now : Z) :
  (forall k e, c !! k = Some e -> now > DataCache.expiresAt e ->
     DataCache.cleanup now c !! k = None /\ k ∉ dom (DataCache.cleanup now c)) /\
  (forall k e, DataCache.cleanup now c !! k = Some e ->
     c !! k = Some e /\ now <= DataCache.expiresAt e) /\
  (forall k e, c !! k = Some e -> now <= DataCache.expiresAt e ->
     DataCache.cleanup now c !! k = Some e) /\
  (forall k v ttl t_stamp t, t + default DataCache.DEFAULT_TTL ttl < now ->
     DataCache.cleanup now (DataCache.set k v ttl t_stamp t c) !! k = None /\
     k ∉ dom (DataCache.cleanup now (DataCache.set k v ttl t_stamp t c))) /\
  (forall k v ttl t_stamp t, now <= t + default DataCache.DEFAULT_TTL ttl ->
     DataCache.cleanup now (DataCache.set k v ttl t_stamp t c) !! k
     = DataCache.set k v ttl t_stamp t c !! k /\
     k ∈ dom (DataCache.cleanup now (DataCache.set k v ttl t_stamp t c))).
Proof.
  split; [|split; [|split; [|split]]].
  - intros k e Hk Hexp. rewrite not_elem_of_dom, cleanup_lookup, Hk.
    destruct (Z.gtb_spec now (DataCache.expiresAt e)); [split; reflexivity|lia].
  - intros k e. rewrite cleanup_lookup.
    destruct (c !! k) as [e0|]; [|discriminate].
    destruct (Z.gtb_spec now (DataCache.expiresAt e0)); [discriminate|].
    intros He. injection He as He. subst e0. split; [reflexivity|lia].
  - intros k e Hk Hle. rewrite cleanup_lookup, Hk.
    destruct (Z.gtb_spec now (DataCache.expiresAt e)); [lia|reflexivity].
  - intros k v ttl t_stamp t Hexp.
    rewrite not_elem_of_dom, cleanup_lookup. unfold DataCache.set.
    rewrite lookup_insert_eq. cbn [DataCache.expiresAt].
    destruct (Z.gtb_spec now (t + default DataCache.DEFAULT_TTL ttl));
      [split; reflexivity|lia].
  - intros k v ttl t_stamp t Hle.
    assert (H : DataCache.cleanup now (DataCache.set k v ttl t_stamp t c) !! k
                = DataCache.set k v ttl t_stamp t c !! k).
    { rewrite cleanup_lookup. unfold DataCache.set.
      rewrite lookup_insert_eq. cbn [DataCache.expiresAt].
      destruct (Z.gtb_spec now (t + default DataCache.DEFAULT_TTL ttl));
        [lia|reflexivity]. }
    split; [exact H|]. apply elem_of_dom. rewrite H. unfold DataCache.set.
    rewrite lookup_insert_eq. eauto.
Qed.

(** C8, as amended - the order of the two times of an entry.  The entry
    written by [set] holds the data and, as [timestamp], the first
    reading of the clock.  With a ttl that is not negative (the default,
    five minutes, is not) and the two readings of the clock in order,
    [expiresAt >= timestamp].  It is not so for every ttl: with a
    negative ttl and the two readings equal, [expiresAt < timestamp].
    No entry is ever changed in place: after any operation of the class,
    the entry under a key is the one that was there before, unless the
    operation is a [set] on that key, and then it is the entry that
    [set] has just put. *)
Theorem set_entry_order_and_immutability c k v (ttl : option Z) (t_stamp t : Z) :
  0 <= default DataCache.DEFAULT_TTL ttl ->
  t_stamp <= t ->
  (exists e, DataCache.set k v ttl t_stamp t c !! k = Some e /\
             DataCache.data e = v /\
             DataCache.timestamp e = t_stamp /\
             DataCache.expiresAt e >= DataCache.timestamp e) /\
  (forall negative : Z, negative < 0 ->
     exists e, DataCache.set k v (Some negative) t t c !! k = Some e /\
               DataCache.expiresAt e < DataCache.timestamp e) /\
  (forall (op : DataCache.Op) c' k' e',
     DataCache.apply op c' !! k' = Some e' ->
     c' !! k' = Some e' \/
     exists d ttl' ts' t',
       op = DataCache.OpSet k' d ttl' ts' t' /\
       DataCache.set k' d ttl' ts' t' c' !! k' = Some e').
Proof.
  intros Httl Hclock. split; [|split].
  - eexists. split; [apply lookup_insert_eq|].
    cbn [DataCache.expiresAt DataCache.timestamp DataCache.data].
    repeat split. lia.
  - intros negative Hneg. eexists. split; [apply lookup_insert_eq|].
    cbn [DataCache.expiresAt DataCache.timestamp].
    change (default DataCache.DEFAULT_TTL (Some negative)) with negative. lia.
  - intros [key d ttl' ts' t'|now' key|pattern|now'] c' k' e'; cbn [DataCache.apply].
    + unfold DataCache.set. rewrite lookup_insert. case_decide as Hkey.
      * intros He'. right. exists d, ttl', ts', t'. subst key.
        split; [reflexivity|]. rewrite lookup_insert_eq. exact He'.
      * auto.
    + intros H. left. eapply get_only_deletes, H.
    + intros H. left. eapply invalidate_only_deletes, H.
    + intros H. left. eapply cleanup_only_deletes, H.
Qed.

End CacheClaims.

(** The default ttl of the class is five minutes and is not negative. *)
Lemma DEFAULT_TTL_value : DataCache.DEFAULT_TTL = 300000.
Proof. reflexivity. Qed.

Lemma get_after_set_ttl_witness :
  fst (DataCache.get 5000 "k" (DataCache.set "k" "v"%string (Some 1000) 5000 5000 ∅)) = Some "v"%string /\
  fst (DataCache.get 6000 "k" (DataCache.set "k" "v"%string (Some 1000) 5000 5000 ∅)) = Some "v"%string /\
  fst (DataCache.get 6001 "k" (DataCache.set "k" "v"%string (Some 1000) 5000 5000 ∅)) = None.
Proof.
  split; [|split].
  - apply (get_after_set_ttl ∅ "k" "v"%string (Some 1000) 5000 5000 5000); simpl; lia.
  - apply (get_after_set_ttl ∅ "k" "v"%string (Some 1000) 5000 5000 6000); simpl; lia.
  - apply (get_after_set_ttl ∅ "k" "v"%string (Some 1000) 5000 5000 6001); simpl; lia.
Defined.

Lemma get_evicts_expired_witness :
  snd (DataCache.get 6001 "k"
         (DataCache.set "k" "v"%string (Some 1000) 5000 5000 ∅)) !! "k" = None.
Proof.
  apply (get_evicts_expired _ "k" (DataCache.mkEntry "v"%string 5000 6000) 6001).
  - reflexivity.
  - simpl. lia.
Defined.

Lemma cleanup_removes_expired_witness :
  DataCache.cleanup 5001 (DataCache.set "k" "v"%string (Some 0) 5000 5000 ∅) !! "k" = None.
Proof.
  apply (cleanup_removes_expired (T := string) ∅ 5001). simpl. lia.
Defined.

Lemma set_entry_order_and_immutability_witness :
  exists e, DataCache.set "k" "v"%string None 5000 5000 ∅ !! "k" = Some e /\
            DataCache.data e = "v"%string /\
            DataCache.timestamp e = 5000 /\
            DataCache.expiresAt e >= DataCache.timestamp e.
Proof.
  apply (set_entry_order_and_immutability ∅ "k" "v"%string None 5000 5000).
  - simpl. unfold DataCache.DEFAULT_TTL. lia.
  - lia.
Defined.

(** C9, counterexample - an entry set with a ttl of 0 and swept in the
    same millisecond is still in the key set. *)
Lemma cleanup_keeps_ttl0_entry_counterexample :
  "k" ∈ dom (DataCache.cleanup 5000
               (DataCache.set "k" "v"%string (Some 0) 5000 5000 ∅)).
Proof.
  apply elem_of_dom. rewrite cleanup_lookup. vm_compute. eauto.
Defined.

(** C8, counterexample - a caller may pass a negative ttl: the entry then
    expires before it was stored. *)
Lemma set_negative_ttl_counterexample :
  exists e, DataCache.set "k" "v"%string (Some (-1)) 5000 5000 ∅ !! "k" = Some e /\
            ~ (DataCache.expiresAt e >= DataCache.timestamp e).
Proof.
  eexists. split; [apply lookup_insert_eq|]. simpl. lia.
Defined.

(** * Properties of the hook *)

Section HookFacts.
Import useOptimizedData.
Context {T : Type}.
Variable truthy : T -> bool.
Variable key : string.
Variable options : Options.
Implicit Types (w : World T) (cl : Closure) (p : Pending).

Lemma issue_fetchFn_calls w : fetchFn_calls (issue w) = S (fetchFn_calls w).
Proof. unfold issue, abort_current. cbn. destruct (abortControllerRef w); reflexivity. Qed.

Lemma issue_timers w : timers (issue w) = timers w.
Proof. unfold issue, abort_current. cbn. destruct (abortControllerRef w); reflexivity. Qed.

Lemma issue_retryCount w : retryCount (state (issue w)) = retryCount (state w).
Proof. unfold issue, abort_current. cbn. destruct (abortControllerRef w); reflexivity. Qed.

Lemma issue_lastFetchRef w : lastFetchRef (issue w) = lastFetchRef w.
Proof. unfold issue, abort_current. cbn. destruct (abortControllerRef w); reflexivity. Qed.

Lemma issue_globalCache w : globalCache (issue w) = globalCache w.
Proof. unfold issue, abort_current. cbn. destruct (abortControllerRef w); reflexivity. Qed.

Lemma issue_isLoading w : isLoading (state (issue w)) = true.
Proof. unfold issue, abort_current. cbn. destruct (abortControllerRef w); reflexivity. Qed.

(** The controller installed by [issue] is the one [fetchData_begin]
    records in [p_token]. *)
Lemma issue_token w : abortControllerRef (issue w) = Some (length (controllers w)).
Proof.
  unfold issue, abort_current. cbn. destruct (abortControllerRef w); cbn; [|reflexivity].
  rewrite length_insert. reflexivity.
Qed.

(** A forced call always reaches [fetchFn()]. *)
Lemma fetchData_begin_forced cl (now now_get : Z) w :
  fetchData_begin truthy key cl true now now_get w
  = (Awaiting (mkPending cl now (length (controllers w))), issue w).
Proof. unfold fetchData_begin, check_cache. rewrite andb_false_r. reflexivity. Qed.

(** [check_cache] touches nothing but [globalCache]. *)
Lemma check_cache_frame (force : bool) (now_get : Z) w :
  exists c, snd (check_cache truthy key force now_get w) = set_globalCache c w.
Proof.
  unfold check_cache. destruct force.
  - exists (globalCache w). destruct w; reflexivity.
  - destruct (DataCache.get now_get key (globalCache w)) as [[v|] c].
    + exists c. destruct (truthy v); reflexivity.
    + exists c. reflexivity.
Qed.

(** The guard of line 102: a call that is not forced, made through a
    closure that saw [isLoading = true], does not fetch. *)
Lemma loading_guard cl (now now_get : Z) w :
  seen_isLoading cl = true ->
  (exists v, fst (fetchData_begin truthy key cl false now now_get w) = Returned v) /\
  fetchFn_calls (snd (fetchData_begin truthy key cl false now now_get w)) = fetchFn_calls w.
Proof.
  intros Hl. unfold fetchData_begin.
  destruct (check_cache_frame false now_get w) as [c Hc].
  destruct (check_cache truthy key false now_get w) as [[v|] w1]; cbn [snd] in Hc; subst w1.
  - split; [eexists; reflexivity | reflexivity].
  - rewrite Hl. split; [eexists; reflexivity | reflexivity].
Qed.

(** Once the cache check of a call has found nothing usable, the check of
    a later call finds nothing either, until something is written. *)
Lemma check_cache_miss_stable (g1 g2 : Z) w w1 w' :
  check_cache truthy key false g1 w = (None, w1) ->
  globalCache w' = globalCache w1 ->
  fst (check_cache truthy key false g2 w') = None.
Proof.
  unfold check_cache, DataCache.get. intros H Hc. rewrite Hc.
  destruct (globalCache w !! key) as [e|] eqn:He.
  - destruct (g1 >? DataCache.expiresAt e).
    + injection H as <-. cbn [globalCache set_globalCache].
      rewrite lookup_delete_eq. reflexivity.
    + destruct (truthy (DataCache.data e)) eqn:Ht; [discriminate|].
      injection H as <-. cbn [globalCache set_globalCache]. rewrite He.
      destruct (g2 >? DataCache.expiresAt e); [reflexivity|].
      rewrite Ht. reflexivity.
  - injection H as <-. cbn [globalCache set_globalCache]. rewrite He. reflexivity.
Qed.

(** The guard of line 102 through a stale closure.  A call that is not
    forced has got past the guards and is awaiting its fetch; a second
    call that is not forced, made later through the same function while
    the hook is loading, invokes [fetchFn] again. *)
Lemma stale_closure_fetches_again cl (now1 g1 now2 g2 : Z) w p1 w1 :
  fetchData_begin truthy key cl false now1 g1 w = (Awaiting p1, w1) ->
  now1 <= now2 ->
  isLoading (state w1) = true /\
  exists p2 w2,
    fetchData_begin truthy key cl false now2 g2 w1 = (Awaiting p2, w2) /\
    fetchFn_calls w2 = S (S (fetchFn_calls w)).
Proof.
  intros H1 Hle. unfold fetchData_begin in H1.
  destruct (check_cache_frame false g1 w) as [c Hc].
  destruct (check_cache truthy key false g1 w) as [[v|] w0] eqn:Hcheck; [discriminate|].
  cbn [snd] in Hc.
  destruct (seen_isLoading cl) eqn:Hl; [discriminate|]. cbn [andb negb] in H1.
  destruct (Z.ltb_spec (now1 - lastFetchRef w0) 1000) as [|Hrate]; [discriminate|].
  injection H1 as _ <-. split; [apply issue_isLoading|].
  unfold fetchData_begin.
  pose proof (check_cache_miss_stable g1 g2 w w0 (issue w0) Hcheck (issue_globalCache w0))
    as Hmiss.
  destruct (check_cache_frame false g2 (issue w0)) as [c2 Hc2].
  destruct (check_cache truthy key false g2 (issue w0)) as [o w2];
    cbn [fst snd] in Hmiss, Hc2. subst o w2.
  rewrite Hl. cbn [andb negb lastFetchRef set_globalCache].
  rewrite issue_lastFetchRef.
  destruct (Z.ltb_spec (now2 - lastFetchRef w0) 1000); [lia|].
  do 2 eexists. split; [reflexivity|].
  rewrite issue_fetchFn_calls. cbn [fetchFn_calls set_globalCache].
  rewrite issue_fetchFn_calls. subst w0. reflexivity.
Qed.

(** What a resolution does, lines 120-125 and the [finally] block,
    whatever the state of the controller of the call. *)
Lemma settle_resolves_writes p (result : T) (t_stamp t_exp : Z) w :
  let w' := snd (fetchData_settle key options p (Resolves result) t_stamp t_exp w) in
  data (state w') = Some result /\
  globalCache w' !! key
  = Some (DataCache.mkEntry result t_stamp (t_exp + opt_ttl options)) /\
  lastFetchRef w' = p_now p /\
  retryCount (state w') = 0%nat /\
  isLoading (state w') = false /\
  abortControllerRef w' = None.
Proof.
  cbn zeta. unfold fetchData_settle. cbn.
  repeat split. unfold DataCache.set. apply lookup_insert_eq.
Qed.

(** What a rejection does, lines 126-140. *)
Lemma settle_rejects_timers p (err : Thrown) (t_stamp t_exp : Z) w :
  timers (snd (fetchData_settle key options p (Rejects err) t_stamp t_exp w))
  = timers w ++
    (if opt_retryOnError options && (Z.of_nat (seen_retryCount (p_closure p)) <? opt_maxRetries options)
     then [mkTimer (2 ^ Z.of_nat (seen_retryCount (p_closure p)) * 1000) (p_closure p)]
     else []).
Proof.
  unfold fetchData_settle. cbn [snd].
  destruct (opt_retryOnError options && _); cbn; [reflexivity|].
  symmetry. apply app_nil_r.
Qed.

(** The world after a rejection that sets a retry timer. *)
Lemma settle_rejects_retry p (err : Thrown) (t_stamp t_exp : Z) w :
  opt_retryOnError options
  && (Z.of_nat (seen_retryCount (p_closure p)) <? opt_maxRetries options) = true ->
  snd (fetchData_settle key options p (Rejects err) t_stamp t_exp w)
  = finally (schedule_retry (p_closure p) (setError (Some (errorMessage err)) w)).
Proof. intros H. unfold fetchData_settle. cbn [snd]. rewrite H. reflexivity. Qed.

Lemma retry_timers cl (e : option string) w :
  timers (finally (schedule_retry cl (setError e w)))
  = timers w ++ [mkTimer (2 ^ Z.of_nat (seen_retryCount cl) * 1000) cl].
Proof. reflexivity. Qed.

Lemma retry_fetchFn_calls cl (e : option string) w :
  fetchFn_calls (finally (schedule_retry cl (setError e w))) = fetchFn_calls w.
Proof. reflexivity. Qed.

Lemma retry_retryCount cl (e : option string) w :
  retryCount (state (finally (schedule_retry cl (setError e w)))) = S (retryCount (state w)).
Proof. reflexivity. Qed.

(** One round of [always_failing] whose call fetches and whose rejection
    sets a retry timer. *)
Lemma always_failing_step (n : nat) (err : Thrown) (latency : Z) cl (force : bool)
    (now : Z) w p w1 :
  fetchData_begin truthy key cl force now now w = (Awaiting p, w1) ->
  opt_retryOnError options
  && (Z.of_nat (seen_retryCount (p_closure p)) <? opt_maxRetries options) = true ->
  always_failing truthy key options (S n) err latency cl force now w
  = always_failing truthy key options n err latency (p_closure p) true
      (now + latency + 2 ^ Z.of_nat (seen_retryCount (p_closure p)) * 1000)
      (finally (schedule_retry (p_closure p) (setError (Some (errorMessage err)) w1))).
Proof.
  intros Hbegin Hcond. cbn [always_failing]. rewrite Hbegin.
  rewrite (settle_rejects_retry p err _ _ w1 Hcond).
  rewrite retry_timers, drop_app_length. reflexivity.
Qed.

(** A chain of forced calls through a closure that saw [retryCount = 0],
    each rejected: every rejection sets a timer of 1000 ms for the same
    closure. *)
Lemma always_failing_forced (n : nat) (err : Thrown) (latency : Z) :
  opt_retryOnError options = true ->
  0 < opt_maxRetries options ->
  forall cl (now : Z) w,
    seen_retryCount cl = 0%nat ->
    let w' := always_failing truthy key options n err latency cl true now w in
    fetchFn_calls w' = (fetchFn_calls w + n)%nat /\
    map delay (timers w') = map delay (timers w) ++ repeat 1000 n /\
    retryCount (state w') = (retryCount (state w) + n)%nat.
Proof.
  intros Hretry Hmax. induction n as [|n IH]; intros cl now w Hcl; cbn zeta.
  - cbn [always_failing repeat]. rewrite app_nil_r. repeat split; lia.
  - assert (Hcond : opt_retryOnError options
                    && (Z.of_nat (seen_retryCount cl) <? opt_maxRetries options) = true).
    { rewrite Hretry, Hcl. apply Z.ltb_lt. exact Hmax. }
    rewrite (always_failing_step n err latency cl true now w _ _
               (fetchData_begin_forced cl now now w) Hcond).
    cbn [p_closure].
    destruct (IH cl (now + latency + 2 ^ Z.of_nat (seen_retryCount cl) * 1000)
                 (finally (schedule_retry cl (setError (Some (errorMessage err)) (issue w))))
                 Hcl) as (IH1 & IH2 & IH3).
    rewrite IH1, IH2, IH3.
    rewrite retry_timers, retry_fetchFn_calls, retry_retryCount,
      issue_fetchFn_calls, issue_timers, issue_retryCount.
    rewrite Hcl, map_app. cbn [map delay repeat].
    repeat split; [lia | | lia].
    rewrite <- app_assoc. reflexivity.
Qed.

(** The initial load of a freshly mounted hook, the cache being empty,
    reaches [fetchFn()]. *)
Lemma initial_load_issues :
  initial_load truthy key (render (T := T) initial) Scenario.t0 Scenario.t0 initial
  = (Awaiting (mkPending (render (T := T) initial) Scenario.t0 0), issue initial).
Proof.
  unfold initial_load, fetchData_begin, check_cache, DataCache.get.
  cbn [globalCache initial]. rewrite lookup_empty. reflexivity.
Qed.

End HookFacts.

Section HookClaims.
Import useOptimizedData.
Context {T : Type}.
Variable truthy : T -> bool.
Variable key : string.
Variable options : Options.
Implicit Types (w : World T) (cl : Closure) (p : Pending).

(** C2 - the backoff schedule, on the code.  The hook is mounted with
    the default options ([retryOnError], [maxRetries = 3]) and [fetchFn]
    rejects every time.  Each retry is the [fetchData] of the first
    render calling itself from its timer, and that function goes on
    reading [retryCount = 0]: for every [n], the initial load and the
    retries that follow it invoke [fetchFn] [n] times at least, every
    timer is set to 1000 ms, and the [retryCount] cell reaches [n].  With
    [n = 5] this is a fifth invocation, where the claim has four and
    delays of 1 s, 2 s, 4 s. *)
Theorem retries_never_stop (n : nat) (err : Thrown) (latency : Z) :
  let w := always_failing truthy key Scenario.defaults n err latency
             (render (T := T) initial) false Scenario.t0 initial in
  fetchFn_calls w = n /\
  map delay (timers w) = repeat 1000 n /\
  retryCount (state w) = n.
Proof.
  destruct n as [|n]; cbn zeta; [repeat split|].
  rewrite (always_failing_step truthy key Scenario.defaults n err latency
             (render (T := T) initial) false Scenario.t0 initial _ _
             (initial_load_issues truthy key) eq_refl).
  cbn [p_closure].
  destruct (always_failing_forced truthy key Scenario.defaults n err latency
              eq_refl eq_refl (render (T := T) initial)
              (Scenario.t0 + latency + 2 ^ Z.of_nat (seen_retryCount (render (T := T) initial)) * 1000)
              (finally (schedule_retry (render (T := T) initial)
                          (setError (Some (errorMessage err)) (issue initial))))
              eq_refl) as (H1 & H2 & H3).
  rewrite H1, H2, H3. repeat split.
Qed.

(** C5, as amended - rate limiting.  A call that is not forced and whose
    [now] is less than 1000 ms after [lastFetchRef.current] invokes no
    fetch: it returns the cached value or nothing.  [lastFetchRef.current]
    is written by a successful fetch only, and holds the [now] at which
    that call of [fetchData] started; a rejected fetch leaves it as it
    was. *)
Theorem rate_limit_from_last_success cl (now now_get : Z) w :
  now - lastFetchRef w < 1000 ->
  (exists v, fst (fetchData_begin truthy key cl false now now_get w) = Returned v) /\
  fetchFn_calls (snd (fetchData_begin truthy key cl false now now_get w)) = fetchFn_calls w /\
  (forall p (out : Outcome T) (t_stamp t_exp : Z) w0,
     lastFetchRef (snd (fetchData_settle key options p out t_stamp t_exp w0))
     = match out with
       | Resolves _ => p_now p
       | Rejects _ => lastFetchRef w0
       end).
Proof.
  intros Hrate. split; [|split].
  - unfold fetchData_begin.
    destruct (check_cache_frame truthy key false now_get w) as [c Hc].
    destruct (check_cache truthy key false now_get w) as [[v|] w1];
      cbn [snd] in Hc; subst w1; [eexists; reflexivity|].
    destruct (seen_isLoading cl); cbn [andb negb]; [eexists; reflexivity|].
    cbn [lastFetchRef set_globalCache].
    destruct (Z.ltb_spec (now - lastFetchRef w) 1000); [eexists; reflexivity | lia].
  - unfold fetchData_begin.
    destruct (check_cache_frame truthy key false now_get w) as [c Hc].
    destruct (check_cache truthy key false now_get w) as [[v|] w1];
      cbn [snd] in Hc; subst w1; [reflexivity|].
    destruct (seen_isLoading cl); cbn [andb negb]; [reflexivity|].
    cbn [lastFetchRef set_globalCache].
    destruct (Z.ltb_spec (now - lastFetchRef w) 1000); [reflexivity | lia].
  - intros p [result|err] t_stamp t_exp w0; unfold fetchData_settle; cbn [snd].
    + reflexivity.
    + destruct (opt_retryOnError options && _); reflexivity.
Qed.

(** C6, as amended - a failure is surfaced at once.  Whenever the awaited
    [fetchFn()] rejects, whatever the retry budget, the promise of
    [fetchData] rejects with the same error and [error] is set to its
    message; [isLoading] is false afterwards.  A retry timer is set
    exactly when [retryOnError] holds and the [retryCount] seen by the
    failing call is below [maxRetries].  The hook stays usable: a
    [refresh()] made afterwards, through any closure, invokes
    [fetchFn]. *)
Theorem failure_surfaced_at_once p (err : Thrown) (t_stamp t_exp : Z) w :
  let r := fetchData_settle key options p (Rejects err) t_stamp t_exp w in
  fst r = Rejected err /\
  error (state (snd r)) = Some (errorMessage err) /\
  isLoading (state (snd r)) = false /\
  timers (snd r)
  = timers w ++
    (if opt_retryOnError options
        && (Z.of_nat (seen_retryCount (p_closure p)) <? opt_maxRetries options)
     then [mkTimer (2 ^ Z.of_nat (seen_retryCount (p_closure p)) * 1000) (p_closure p)]
     else []) /\
  (forall cl (now : Z),
     (exists p', fst (refresh truthy key cl now (snd r)) = Awaiting p') /\
     fetchFn_calls (snd (refresh truthy key cl now (snd r))) = S (fetchFn_calls (snd r))).
Proof.
  cbn zeta. split; [reflexivity|]. split; [|split; [|split]].
  - unfold fetchData_settle. cbn [snd].
    destruct (opt_retryOnError options && _); reflexivity.
  - unfold fetchData_settle. cbn [snd].
    destruct (opt_retryOnError options && _); reflexivity.
  - apply settle_rejects_timers.
  - intros cl now. unfold refresh. rewrite fetchData_begin_forced. cbn [fst snd].
    split; [eexists; reflexivity|]. rewrite issue_fetchFn_calls. reflexivity.
Qed.

(** C7, as amended - [invalidate()].  The key, and with it every key
    that includes it, is removed from the cache, so that a [get] that
    follows returns [null]; [data] is set to [null]; [isLoading], [error]
    and [retryCount] are left as they were; no fetch is invoked and no
    timer is set. *)
Theorem invalidate_clears_key_and_data w :
  let w' := invalidate key w in
  globalCache w' !! key = None /\
  (forall now : Z, fst (DataCache.get now key (globalCache w')) = None) /\
  (forall k, includes k key = true -> globalCache w' !! k = None) /\
  data (state w') = None /\
  isLoading (state w') = isLoading (state w) /\
  error (state w') = error (state w) /\
  retryCount (state w') = retryCount (state w) /\
  fetchFn_calls w' = fetchFn_calls w /\
  timers w' = timers w.
Proof.
  cbn zeta.
  assert (Hc : globalCache (invalidate key w)
               = DataCache.invalidate (Some key) (globalCache w)) by reflexivity.
  rewrite Hc.
  split; [apply invalidate_key_gone|].
  split; [intros now; unfold DataCache.get; rewrite invalidate_key_gone; reflexivity|].
  split; [intros k Hk; apply invalidate_includes, Hk|].
  repeat split.
Qed.

End HookClaims.

Section Scenarios.
Import useOptimizedData.

(** C1 - cancellation, on the code.  In the run [Scenario.supersession]
    the second [refresh()] aborts the controller of request A; B's result
    ["new"] is written to [data] and to the cache; A's result, arriving
    afterwards, replaces both with ["old"] and puts [lastFetchRef] back to
    A's start.  In the run [Scenario.detach] the unmount aborts the
    controller of the pending request, whose result is written to the
    cache all the same.  Nothing reads the [aborted] flag. *)
Theorem superseded_result_overwrites :
  (exists pA w2 w3 w4,
     Scenario.supersession = Some (pA, w2, w3, w4) /\
     aborted (p_token pA) w2 = true /\
     data (state w3) = Some "new"%string /\
     DataCache.data <$> globalCache w3 !! Scenario.key = Some "new"%string /\
     data (state w4) = Some "old"%string /\
     DataCache.data <$> globalCache w4 !! Scenario.key = Some "old"%string /\
     lastFetchRef w4 < lastFetchRef w3) /\
  (exists p w2 w3,
     Scenario.detach = Some (p, w2, w3) /\
     aborted (p_token p) w2 = true /\
     globalCache w2 !! Scenario.key = None /\
     DataCache.data <$> globalCache w3 !! Scenario.key = Some "late"%string).
Proof.
  split.
  - do 4 eexists. split; [vm_compute; reflexivity|].
    vm_compute. repeat split.
  - do 3 eexists. split; [vm_compute; reflexivity|].
    vm_compute. repeat split.
Qed.

(** C3 - de-duplication, on the code.  When a focused screen mounts, the
    initial-load effect calls [fetchData()] and invokes [fetchFn]; the
    hook is then loading.  The focus effect of the same commit calls
    [fetchData()] through the same function, which still reads
    [isLoading = false]: the guard of line 102 lets it through, the first
    controller is aborted and [fetchFn] is invoked a second time. *)
Theorem mount_fetches_twice :
  exists p1 w1 p2 w2,
    Scenario.mount = ((Awaiting p1, w1), (Awaiting p2, w2)) /\
    isLoading (state w1) = true /\
    fetchFn_calls w1 = 1%nat /\
    aborted (p_token p1) w2 = true /\
    fetchFn_calls w2 = 2%nat.
Proof.
  do 4 eexists. split; [vm_compute; reflexivity|].
  vm_compute. repeat split.
Qed.

(** C5, counterexample - the fetch of the initial load rejects at
    [t0 + 100]; a call that is not forced, made one millisecond later,
    invokes [fetchFn] again. *)
Lemma request_after_failure_fetches :
  exists w2 p w3,
    Scenario.request_after_failure = Some (w2, (Awaiting p, w3)) /\
    error (state w2) = Some "boom"%string /\
    fetchFn_calls w3 = S (fetchFn_calls w2).
Proof.
  do 3 eexists. split; [vm_compute; reflexivity|].
  vm_compute. repeat split.
Defined.

(** C6, counterexample - the first failure, with the whole retry budget
    left and a retry timer set, already rejects the promise and sets
    [error]. *)
Lemma failure_surfaced_with_budget_left :
  exists w,
    Scenario.failed_load = Some (Rejected Scenario.boom, w) /\
    error (state w) = Some "boom"%string /\
    Z.of_nat (retryCount (state w)) < opt_maxRetries Scenario.defaults /\
    timers w = [mkTimer 1000 (render Scenario.start)].
Proof.
  eexists. split; [vm_compute; reflexivity|].
  vm_compute. repeat split.
Defined.

(** C7, counterexample - [invalidate()] after a failed load leaves
    [error] and [retryCount] as they were. *)
Lemma invalidate_keeps_error_and_retryCount :
  exists w,
    Scenario.invalidate_after_failure = Some w /\
    error (state w) <> None /\
    retryCount (state w) <> 0%nat.
Proof.
  eexists. split; [vm_compute; reflexivity|].
  vm_compute. split; discriminate.
Defined.

Lemma rate_limit_from_last_success_witness :
  (exists v, fst (fetchData_begin Scenario.truthy Scenario.key
                    (render Scenario.loaded_then_invalidated) false
                    (Scenario.t0 + 500) (Scenario.t0 + 500)
                    Scenario.loaded_then_invalidated) = Returned v) /\
  fetchFn_calls (snd (fetchData_begin Scenario.truthy Scenario.key
                        (render Scenario.loaded_then_invalidated) false
                        (Scenario.t0 + 500) (Scenario.t0 + 500)
                        Scenario.loaded_then_invalidated)) = 1%nat.
Proof.
  destruct (rate_limit_from_last_success Scenario.truthy Scenario.key Scenario.defaults
              (render Scenario.loaded_then_invalidated)
              (Scenario.t0 + 500) (Scenario.t0 + 500)
              Scenario.loaded_then_invalidated) as (H1 & H2 & _).
  - vm_compute. reflexivity.
  - split; [exact H1|]. rewrite H2. reflexivity.
Defined.

Lemma failure_surfaced_at_once_witness :
  fetchFn_calls
    (snd (refresh Scenario.truthy Scenario.key (mkClosure false 1) (Scenario.t0 + 5000)
            (snd (fetchData_settle Scenario.key Scenario.defaults
                    (mkPending (mkClosure false 3) Scenario.t0 0)
                    (Rejects Scenario.boom) Scenario.t0 Scenario.t0 Scenario.start))))
  = 1%nat.
Proof.
  apply (failure_surfaced_at_once Scenario.truthy Scenario.key Scenario.defaults
           (mkPending (mkClosure false 3) Scenario.t0 0) Scenario.boom
           Scenario.t0 Scenario.t0 Scenario.start).
Defined.

Lemma invalidate_clears_key_and_data_witness :
  globalCache (invalidate Scenario.key Scenario.loaded) !! "user-meals-today" = None.
Proof.
  apply (invalidate_clears_key_and_data Scenario.key Scenario.loaded).
  vm_compute. reflexivity.
Defined.

End Scenarios.

(** * Further properties of [DataCache] *)

Section Substrings.

Lemma prefix_append (p k : string) :
  String.prefix p k = true <-> exists post, k = String.append p post.
Proof.
  revert k. induction p as [|a p IH]; intros k.
  - split; [intros _; exists k; reflexivity | intros _; destruct k; reflexivity].
  - destruct k as [|b k]; simpl.
    + split; [discriminate | intros [post H]; discriminate].
    + destruct (Ascii.ascii_dec a b) as [->|Hne].
      * rewrite IH. split; intros [post H]; exists post.
        -- rewrite H. reflexivity.
        -- injection H as H. exact H.
      * split; [discriminate|]. intros [post H]. injection H as Hab _. congruence.
Qed.

Lemma includes_of_prefix (key pattern : string) :
  String.prefix pattern key = true -> includes key pattern = true.
Proof. intros H. destruct key; cbn [includes]; rewrite H; reflexivity. Qed.

Lemma includes_cons (a : Ascii.ascii) (key pattern : string) :
  includes key pattern = true -> includes (String a key) pattern = true.
Proof. intros H. cbn [includes]. rewrite H. apply orb_true_r. Qed.

(** [includes key pattern] holds exactly when [pattern] occurs in [key]. *)
Lemma includes_substring (key pattern : string) :
  includes key pattern = true
  <-> exists pre post, key = String.append pre (String.append pattern post).
Proof.
  split.
  - induction key as [|a key IH]; cbn [includes]; intros H;
      apply orb_true_iff in H as [H|H].
    + apply prefix_append in H as [post H]. exists EmptyString, post. exact H.
    + discriminate.
    + apply prefix_append in H as [post H]. exists EmptyString, post. exact H.
    + destruct (IH H) as (pre & post & ->). exists (String a pre), post. reflexivity.
  - intros (pre & post & ->). induction pre as [|a pre IH].
    + cbn [String.append]. apply includes_of_prefix, prefix_append. eauto.
    + change (includes (String a (String.append pre (String.append pattern post)))
                pattern = true).
      apply includes_cons, IH.
Qed.

End Substrings.

Section CacheExtras.
Context {T : Type}.
Implicit Types (c : gmap string (DataCache.CacheEntry T)) (k : string) (v : T).

(** X1 - [invalidate].  Without a pattern, or with the empty string, the
    whole cache is cleared.  With a pattern that is not empty, the keys
    in which the pattern occurs are removed and every other key keeps
    its entry. *)
Theorem invalidate_removes_matching_keys c (pattern : string) k :
  (DataCache.invalidate None c = ∅ /\ DataCache.invalidate (Some EmptyString) c = ∅) /\
  (pattern <> EmptyString ->
   ((exists pre post, k = String.append pre (String.append pattern post)) ->
    DataCache.invalidate (Some pattern) c !! k = None) /\
   ((forall pre post, k <> String.append pre (String.append pattern post)) ->
    DataCache.invalidate (Some pattern) c !! k = c !! k)).
Proof.
  split; [split; reflexivity|]. intros Hne. split.
  - intros Hsub. apply invalidate_includes, includes_substring, Hsub.
  - intros Hnot. unfold DataCache.invalidate.
    destruct pattern as [|a p]; [congruence|].
    rewrite invalidate_loop_lookup.
    destruct (includes k (String a p)) eqn:Hinc.
    + apply includes_substring in Hinc as (pre & post & Hk).
      exfalso. exact (Hnot pre post Hk).
    + destruct (c !! k); reflexivity.
Qed.

(** X2 - [set] overwrites.  A second [set] on a key makes the first one
    as if it had not been; the value a later [get] returns, while the
    second entry is valid, is the second one; no other key is
    touched. *)
Theorem set_last_writer_wins c k v1 v2 (ttl1 ttl2 : option Z) (ts1 t1 ts2 t2 : Z) :
  DataCache.set k v2 ttl2 ts2 t2 (DataCache.set k v1 ttl1 ts1 t1 c)
  = DataCache.set k v2 ttl2 ts2 t2 c /\
  (forall now : Z, now <= t2 + default DataCache.DEFAULT_TTL ttl2 ->
     fst (DataCache.get now k
            (DataCache.set k v2 ttl2 ts2 t2 (DataCache.set k v1 ttl1 ts1 t1 c)))
     = Some v2) /\
  (forall k', k' <> k -> DataCache.set k v2 ttl2 ts2 t2 c !! k' = c !! k').
Proof.
  split; [apply insert_insert_eq|]. split.
  - intros now Hnow. unfold DataCache.get, DataCache.set.
    rewrite lookup_insert_eq. cbn [DataCache.expiresAt DataCache.data].
    destruct (Z.gtb_spec now (t2 + default DataCache.DEFAULT_TTL ttl2)); [lia|reflexivity].
  - intros k' Hk. unfold DataCache.set. apply lookup_insert_ne. congruence.
Qed.

Lemma get_other_keys c k k' (now : Z) :
  k' <> k -> snd (DataCache.get now k c) !! k' = c !! k'.
Proof.
  intros Hk. unfold DataCache.get. destruct (c !! k) as [e|]; [|reflexivity].
  destruct (now >? DataCache.expiresAt e); [|reflexivity].
  apply lookup_delete_ne. congruence.
Qed.

(** X3 - [get] reads.  On a key that is not in the map [get] returns
    [null] and leaves the map as it is; on an entry that has not expired
    it returns the data and leaves the map as it is; in every case the
    other keys keep their entries. *)
Theorem get_leaves_live_entries c k (now : Z) :
  (c !! k = None -> DataCache.get now k c = (None, c)) /\
  (forall e, c !! k = Some e -> now <= DataCache.expiresAt e ->
     DataCache.get now k c = (Some (DataCache.data e), c)) /\
  (forall k', k' <> k -> snd (DataCache.get now k c) !! k' = c !! k').
Proof.
  unfold DataCache.get. split; [|split].
  - intros ->. reflexivity.
  - intros e -> Hle.
    destruct (Z.gtb_spec now (DataCache.expiresAt e)); [lia|reflexivity].
  - intros k' Hk. fold (DataCache.get now k c). apply get_other_keys, Hk.
Qed.

(** X6 - the sweep spares what is live.  An entry that has not expired
    at the time of the sweep, the very instant of its expiry included,
    is still in the map after [cleanup], unchanged. *)
Theorem cleanup_spares_live_entries c k (e : DataCache.CacheEntry T) (now : Z) :
  c !! k = Some e ->
  now <= DataCache.expiresAt e ->
  DataCache.cleanup now c !! k = Some e /\ k ∈ dom (DataCache.cleanup now c).
Proof.
  intros Hk Hle.
  assert (H : DataCache.cleanup now c !! k = Some e).
  { rewrite cleanup_lookup, Hk.
    destruct (Z.gtb_spec now (DataCache.expiresAt e)); [lia|reflexivity]. }
  split; [exact H|]. apply elem_of_dom. rewrite H. eauto.
Qed.

(** X4 - the sweep is invisible to readers.  Whatever [get] returns at a
    time [now'] is the same whether or not [cleanup] has run at an
    earlier time [now]. *)
Theorem cleanup_transparent_to_get c k (now now' : Z) :
  now <= now' ->
  fst (DataCache.get now' k (DataCache.cleanup now c)) = fst (DataCache.get now' k c).
Proof.
  intros Hle. unfold DataCache.get. rewrite cleanup_lookup.
  destruct (c !! k) as [e|]; [|reflexivity].
  destruct (Z.gtb_spec now (DataCache.expiresAt e)) as [Hexp|Hlive].
  - destruct (Z.gtb_spec now' (DataCache.expiresAt e)); [reflexivity|lia].
  - destruct (now' >? DataCache.expiresAt e); reflexivity.
Qed.

(** X5 - sweeps compose.  A sweep followed by a later sweep leaves what
    the later sweep alone leaves; in particular sweeping twice at the
    same time is sweeping once. *)
Theorem cleanup_absorbs_earlier_cleanup c (now now' : Z) :
  now <= now' ->
  DataCache.cleanup now' (DataCache.cleanup now c) = DataCache.cleanup now' c.
Proof.
  intros Hle. apply map_eq. intros k. rewrite !cleanup_lookup.
  destruct (c !! k) as [e|]; [|reflexivity].
  destruct (Z.gtb_spec now (DataCache.expiresAt e)) as [Hexp|Hlive].
  - destruct (Z.gtb_spec now' (DataCache.expiresAt e)); [reflexivity|lia].
  - reflexivity.
Qed.

End CacheExtras.

Lemma invalidate_removes_matching_keys_witness :
  DataCache.invalidate (Some "user")
    (DataCache.set "user-meals" "v"%string None 5000 5000 ∅) !! "user-meals" = None.
Proof.
  apply (invalidate_removes_matching_keys
           (DataCache.set "user-meals" "v"%string None 5000 5000 ∅) "user" "user-meals").
  - discriminate.
  - exists EmptyString, "-meals"%string. reflexivity.
Defined.

Lemma set_last_writer_wins_witness :
  fst (DataCache.get 5500 "k"
         (DataCache.set "k" "b"%string (Some 1000) 5000 5000
            (DataCache.set "k" "a"%string None 4000 4000 ∅)))
  = Some "b"%string.
Proof.
  apply (set_last_writer_wins ∅ "k" "a"%string "b"%string None (Some 1000)
           4000 4000 5000 5000).
  simpl. lia.
Defined.

Lemma get_leaves_live_entries_witness :
  DataCache.get 5500 "k" (DataCache.set "k" "v"%string (Some 1000) 5000 5000 ∅)
  = (Some "v"%string, DataCache.set "k" "v"%string (Some 1000) 5000 5000 ∅).
Proof.
  destruct (get_leaves_live_entries
              (DataCache.set "k" "v"%string (Some 1000) 5000 5000 ∅) "k" 5500)
    as (_ & Hlive & _).
  apply (Hlive (DataCache.mkEntry "v"%string 5000 6000)).
  - reflexivity.
  - simpl. lia.
Defined.

Lemma cleanup_transparent_to_get_witness :
  fst (DataCache.get 7000 "k"
         (DataCache.cleanup 5500 (DataCache.set "k" "v"%string (Some 1000) 5000 5000 ∅)))
  = fst (DataCache.get 7000 "k" (DataCache.set "k" "v"%string (Some 1000) 5000 5000 ∅)).
Proof.
  apply (cleanup_transparent_to_get
           (DataCache.set "k" "v"%string (Some 1000) 5000 5000 ∅) "k" 5500 7000).
  lia.
Defined.

Lemma cleanup_absorbs_earlier_cleanup_witness :
  DataCache.cleanup 5500
    (DataCache.cleanup 5500 (DataCache.set "k" "v"%string (Some 0) 5000 5000 ∅))
  = DataCache.cleanup 5500 (DataCache.set "k" "v"%string (Some 0) 5000 5000 ∅).
Proof.
  apply (cleanup_absorbs_earlier_cleanup
           (DataCache.set "k" "v"%string (Some 0) 5000 5000 ∅) 5500 5500).
  lia.
Defined.

Lemma cleanup_spares_live_entries_witness :
  DataCache.cleanup 5000 (DataCache.set "k" "v"%string (Some 0) 5000 5000 ∅) !! "k"
  = Some (DataCache.mkEntry "v"%string 5000 5000).
Proof.
  apply (cleanup_spares_live_entries
           (DataCache.set "k" "v"%string (Some 0) 5000 5000 ∅) "k"
           (DataCache.mkEntry "v"%string 5000 5000) 5000).
  - reflexivity.
  - simpl. lia.
Defined.

(** * Further properties of [useOptimizedData] *)

Section HookExtras.
Import useOptimizedData.
Context {T : Type}.
Variable truthy : T -> bool.
Variable key : string.
Variable options : Options.
Implicit Types (w : World T) (cl : Closure) (p : Pending).

Lemma set_globalCache_same w : set_globalCache (globalCache w) w = w.
Proof. destruct w; reflexivity. Qed.

(** The cache-hit path of [fetchData], lines 93-99. *)
Lemma begin_hit cl (now now_get : Z) w (e : DataCache.CacheEntry T) :
  globalCache w !! key = Some e ->
  now_get <= DataCache.expiresAt e ->
  truthy (DataCache.data e) = true ->
  fetchData_begin truthy key cl false now now_get w
  = (Returned (Some (DataCache.data e)), setData (Some (DataCache.data e)) w).
Proof.
  intros He Hle Ht. unfold fetchData_begin, check_cache, DataCache.get. rewrite He.
  destruct (Z.gtb_spec now_get (DataCache.expiresAt e)); [lia|].
  rewrite Ht, set_globalCache_same. reflexivity.
Qed.

(** The two ways the synchronous prefix of [fetchData] can end. *)
Lemma begin_cases cl (force : bool) (now now_get : Z) w :
  (exists v w1,
     fetchData_begin truthy key cl force now now_get w = (Returned v, w1) /\
     fetchFn_calls w1 = fetchFn_calls w /\
     timers w1 = timers w /\
     retryCount (state w1) = retryCount (state w)) \/
  (exists c,
     fetchData_begin truthy key cl force now now_get w
     = (Awaiting (mkPending cl now (length (controllers w))),
        issue (set_globalCache c w))).
Proof.
  unfold fetchData_begin.
  destruct (check_cache_frame truthy key force now_get w) as [c Hc].
  destruct (check_cache truthy key force now_get w) as [[v|] w1];
    cbn [snd] in Hc; subst w1.
  - left. do 2 eexists. split; [reflexivity|]. repeat split.
  - destruct (seen_isLoading cl && negb force).
    + left. do 2 eexists. split; [reflexivity|]. repeat split.
    + destruct (negb force && _).
      * left. do 2 eexists. split; [reflexivity|]. repeat split.
      * right. exists c. reflexivity.
Qed.

(** X7 - a cache hit.  When the cache holds, under the key of the hook,
    an entry that has not expired and whose data is truthy, a call of
    [fetchData] that is not forced returns that data and stores it in
    [data]; it invokes no fetch and changes nothing else, whatever the
    loading state the closure saw and however recent the last fetch. *)
Theorem cache_hit_skips_fetch cl (now now_get : Z) w (e : DataCache.CacheEntry T) :
  globalCache w !! key = Some e ->
  now_get <= DataCache.expiresAt e ->
  truthy (DataCache.data e) = true ->
  let r := fetchData_begin truthy key cl false now now_get w in
  fst r = Returned (Some (DataCache.data e)) /\
  data (state (snd r)) = Some (DataCache.data e) /\
  isLoading (state (snd r)) = isLoading (state w) /\
  error (state (snd r)) = error (state w) /\
  retryCount (state (snd r)) = retryCount (state w) /\
  fetchFn_calls (snd r) = fetchFn_calls w /\
  timers (snd r) = timers w /\
  globalCache (snd r) = globalCache w /\
  controllers (snd r) = controllers w /\
  abortControllerRef (snd r) = abortControllerRef w /\
  lastFetchRef (snd r) = lastFetchRef w.
Proof.
  intros He Hle Ht. cbn zeta. rewrite (begin_hit cl now now_get w e He Hle Ht).
  repeat split.
Qed.

(** X8 - a fresh result is served from the cache.  After a fetch has
    resolved with a truthy result, a call that is not forced and reads
    the cache no later than the expiry of the entry just written returns
    that result at once and leaves the hook exactly as it was: no fetch,
    no loading state. *)
Theorem fresh_result_served_from_cache p (result : T) (t_stamp t_exp : Z) w
    cl (now now_get : Z) :
  truthy result = true ->
  now_get <= t_exp + opt_ttl options ->
  let w' := snd (fetchData_settle key options p (Resolves result) t_stamp t_exp w) in
  fetchData_begin truthy key cl false now now_get w' = (Returned (Some result), w').
Proof.
  intros Ht Hle. cbn zeta.
  destruct (settle_resolves_writes key options p result t_stamp t_exp w)
    as (_ & Hcache & _).
  cbn zeta in Hcache.
  rewrite (begin_hit cl now now_get _ _ Hcache Hle Ht).
  reflexivity.
Qed.

(** X9 - a falsy cached value is a miss.  When the entry under the key
    has not expired but its data is falsy, a call that is not forced,
    made through a closure that saw no loading and at least a second
    after the last fetch, invokes [fetchFn] as if nothing were cached. *)
Theorem falsy_cached_value_refetched cl (now now_get : Z) w (e : DataCache.CacheEntry T) :
  globalCache w !! key = Some e ->
  now_get <= DataCache.expiresAt e ->
  truthy (DataCache.data e) = false ->
  seen_isLoading cl = false ->
  1000 <= now - lastFetchRef w ->
  fetchData_begin truthy key cl false now now_get w
  = (Awaiting (mkPending cl now (length (controllers w))), issue w) /\
  fetchFn_calls (issue w) = S (fetchFn_calls w).
Proof.
  intros He Hle Ht Hl Hrate. split; [|apply issue_fetchFn_calls].
  unfold fetchData_begin, check_cache, DataCache.get. rewrite He.
  destruct (Z.gtb_spec now_get (DataCache.expiresAt e)); [lia|].
  rewrite Ht, set_globalCache_same, Hl. cbn [andb negb].
  destruct (Z.ltb_spec (now - lastFetchRef w) 1000); [lia|reflexivity].
Qed.

(** X10 - [refresh()] always fetches.  Whatever the state of the hook,
    the cache and the rate limit, [refresh()] removes the key from the
    cache and invokes [fetchFn]: the hook is loading with no error, the
    controller that was current (if it is one of those created) is
    aborted, and a new controller, not aborted, is current. *)
Theorem refresh_always_fetches cl (now : Z) w :
  let r := refresh truthy key cl now w in
  fst r = Awaiting (mkPending cl now (length (controllers w))) /\
  fetchFn_calls (snd r) = S (fetchFn_calls w) /\
  globalCache (snd r) !! key = None /\
  isLoading (state (snd r)) = true /\
  error (state (snd r)) = None /\
  abortControllerRef (snd r) = Some (length (controllers w)) /\
  aborted (length (controllers w)) (snd r) = false /\
  (forall c, abortControllerRef w = Some c -> (c < length (controllers w))%nat ->
     aborted c (snd r) = true).
Proof.
  cbn zeta. unfold refresh. rewrite fetchData_begin_forced. cbn [fst snd].
  set (w0 := set_globalCache (DataCache.invalidate (Some key) (globalCache w)) w).
  split; [reflexivity|].
  split; [rewrite issue_fetchFn_calls; reflexivity|].
  split; [rewrite issue_globalCache; apply invalidate_key_gone|].
  split; [apply issue_isLoading|].
  split; [unfold issue, abort_current; cbn; destruct (abortControllerRef w); reflexivity|].
  split; [rewrite issue_token; reflexivity|].
  split.
  - unfold aborted, issue, abort_current. cbn.
    destruct (abortControllerRef w) as [c|]; cbn.
    + rewrite lookup_app_r by (rewrite length_insert; lia).
      rewrite length_insert, Nat.sub_diag. reflexivity.
    + rewrite lookup_app_r by lia. rewrite Nat.sub_diag. reflexivity.
  - intros c Hc Hlt. unfold aborted, issue, abort_current. cbn. rewrite Hc. cbn.
    rewrite lookup_app_l by (rewrite length_insert; exact Hlt).
    rewrite list_lookup_insert_eq by exact Hlt. reflexivity.
Qed.

(** X11 - a resolution leaves [error] alone.  When the fetch of a call
    resolves, [fetchData] stores the result in [data] and in the cache,
    puts [retryCount] back to 0 and ends the loading, and leaves [error]
    exactly as it was: [error] is cleared when a call is issued, not
    when its fetch resolves.  When a retry timer fires, the call it
    makes clears [error] and invokes [fetchFn]; if nothing else happens
    to the hook before that fetch resolves, the hook ends with no
    error. *)
Theorem resolution_leaves_error_alone p (result : T) (t_stamp t_exp : Z) w
    (tm : Timer) (now : Z) :
  let w' := snd (fetchData_settle key options p (Resolves result) t_stamp t_exp w) in
  (error (state w') = error (state w) /\
   data (state w') = Some result /\
   DataCache.data <$> globalCache w' !! key = Some result /\
   retryCount (state w') = 0%nat /\
   isLoading (state w') = false) /\
  let r := fire truthy key tm now w in
  (fst r = Awaiting (mkPending (callback tm) now (length (controllers w))) /\
   error (state (snd r)) = None /\
   isLoading (state (snd r)) = true /\
   fetchFn_calls (snd r) = S (fetchFn_calls w)) /\
  error (state (snd (fetchData_settle key options
                       (mkPending (callback tm) now (length (controllers w)))
                       (Resolves result) t_stamp t_exp (snd r)))) = None.
Proof.
  cbn zeta.
  assert (Hissue : error (state (issue w)) = None)
    by (unfold issue, abort_current; cbn; destruct (abortControllerRef w); reflexivity).
  split; [|split].
  - unfold fetchData_settle. cbn [snd]. split; [reflexivity|]. split; [reflexivity|].
    split; [|split; reflexivity].
    cbn. unfold DataCache.set. rewrite lookup_insert_eq. reflexivity.
  - unfold fire. rewrite fetchData_begin_forced. cbn [fst snd].
    split; [reflexivity|]. split; [exact Hissue|].
    split; [apply issue_isLoading|apply issue_fetchFn_calls].
  - unfold fire. rewrite fetchData_begin_forced. cbn [snd].
    unfold fetchData_settle. cbn [snd]. exact Hissue.
Qed.

(** X13 - the focus effect.  When [refreshOnFocus] is false, or when the
    cache holds under the key an entry that has not expired and whose
    data is truthy, regaining focus invokes no fetch and leaves the hook
    as it was. *)
Theorem on_focus_skips cl (now_probe now now_get : Z) w :
  (opt_refreshOnFocus options = false ->
   on_focus truthy key options cl now_probe now now_get w = (Returned None, w)) /\
  (forall e : DataCache.CacheEntry T,
     globalCache w !! key = Some e ->
     now_probe <= DataCache.expiresAt e ->
     truthy (DataCache.data e) = true ->
     on_focus truthy key options cl now_probe now now_get w = (Returned None, w)).
Proof.
  unfold on_focus. split.
  - intros ->. reflexivity.
  - intros e He Hle Ht. destruct (opt_refreshOnFocus options); [|reflexivity].
    unfold DataCache.get. rewrite He.
    destruct (Z.gtb_spec now_probe (DataCache.expiresAt e)); [lia|].
    rewrite Ht, set_globalCache_same. reflexivity.
Qed.

(** X14 - [fetchData] keeps to its key.  Neither the synchronous prefix
    of a call nor the continuation after its fetch changes the entry of
    any other key of the shared cache. *)
Theorem fetchData_touches_own_key_only (k : string) cl (force : bool)
    (now now_get : Z) p (out : Outcome T) (t_stamp t_exp : Z) w :
  k <> key ->
  globalCache (snd (fetchData_begin truthy key cl force now now_get w)) !! k
  = globalCache w !! k /\
  globalCache (snd (fetchData_settle key options p out t_stamp t_exp w)) !! k
  = globalCache w !! k.
Proof.
  intros Hk. split.
  - assert (Hcheck : globalCache (snd (check_cache truthy key force now_get w)) !! k
                     = globalCache w !! k).
    { unfold check_cache. destruct force; [reflexivity|].
      pose proof (get_other_keys (globalCache w) key k now_get Hk) as Hother.
      destruct (DataCache.get now_get key (globalCache w)) as [[v|] c]; cbn [snd] in Hother.
      - destruct (truthy v); exact Hother.
      - exact Hother. }
    unfold fetchData_begin.
    destruct (check_cache truthy key force now_get w) as [[v|] w1]; cbn [snd] in Hcheck.
    + exact Hcheck.
    + destruct (seen_isLoading cl && negb force); [exact Hcheck|].
      destruct (negb force && _); [exact Hcheck|].
      cbn [snd]. rewrite issue_globalCache. exact Hcheck.
  - unfold fetchData_settle. destruct out as [result|err]; cbn [snd].
    + cbn. unfold DataCache.set. apply lookup_insert_ne. congruence.
    + destruct (opt_retryOnError options && _); reflexivity.
Qed.

(** X15 - the loading guard.  A call of [fetchData] that is not forced,
    made through a closure that saw [isLoading = true], never fetches:
    it returns, [fetchFn] is not invoked, no controller is aborted or
    created, no timer is set, and [isLoading], [error] and [retryCount]
    stay as they were. *)
Theorem loading_closure_never_fetches cl (now now_get : Z) w :
  seen_isLoading cl = true ->
  let r := fetchData_begin truthy key cl false now now_get w in
  (exists v, fst r = Returned v) /\
  fetchFn_calls (snd r) = fetchFn_calls w /\
  controllers (snd r) = controllers w /\
  abortControllerRef (snd r) = abortControllerRef w /\
  timers (snd r) = timers w /\
  isLoading (state (snd r)) = isLoading (state w) /\
  error (state (snd r)) = error (state w) /\
  retryCount (state (snd r)) = retryCount (state w).
Proof.
  intros Hl. cbn zeta. unfold fetchData_begin.
  destruct (check_cache_frame truthy key false now_get w) as [c Hc].
  destruct (check_cache truthy key false now_get w) as [[v|] w1];
    cbn [snd] in Hc; subst w1.
  - split; [eexists; reflexivity|]. repeat split.
  - rewrite Hl. split; [eexists; reflexivity|]. repeat split.
Qed.

End HookExtras.

Section HookExtraWitnesses.
Import useOptimizedData.

Lemma cache_hit_skips_fetch_witness :
  fst (fetchData_begin Scenario.truthy Scenario.key (mkClosure true 0) false
         (Scenario.t0 + 200) (Scenario.t0 + 200) Scenario.loaded)
  = Returned (Some "meals"%string).
Proof.
  apply (cache_hit_skips_fetch Scenario.truthy Scenario.key (mkClosure true 0)
           (Scenario.t0 + 200) (Scenario.t0 + 200) Scenario.loaded
           (DataCache.mkEntry "meals"%string (Scenario.t0 + 100)
              (Scenario.t0 + 100 + 300000))).
  - vm_compute. reflexivity.
  - simpl. lia.
  - reflexivity.
Defined.

Lemma fresh_result_served_from_cache_witness :
  fst (fetchData_begin Scenario.truthy Scenario.key (mkClosure false 0) false
         (Scenario.t0 + 5000) (Scenario.t0 + 5000)
         (snd (fetchData_settle Scenario.key Scenario.defaults
                 (mkPending (mkClosure false 0) Scenario.t0 0) (Resolves "meals"%string)
                 (Scenario.t0 + 100) (Scenario.t0 + 100) Scenario.start)))
  = Returned (Some "meals"%string).
Proof.
  rewrite (fresh_result_served_from_cache Scenario.truthy Scenario.key Scenario.defaults
             (mkPending (mkClosure false 0) Scenario.t0 0) "meals"%string
             (Scenario.t0 + 100) (Scenario.t0 + 100) Scenario.start
             (mkClosure false 0) (Scenario.t0 + 5000) (Scenario.t0 + 5000)).
  - reflexivity.
  - reflexivity.
  - vm_compute. discriminate.
Defined.

Lemma falsy_cached_value_refetched_witness :
  fetchFn_calls
    (snd (fetchData_begin Scenario.truthy Scenario.key (mkClosure false 0) false
            (Scenario.t0 + 5000) (Scenario.t0 + 5000) Cases.loaded_empty))
  = 2%nat.
Proof.
  destruct (falsy_cached_value_refetched Scenario.truthy Scenario.key (mkClosure false 0)
              (Scenario.t0 + 5000) (Scenario.t0 + 5000) Cases.loaded_empty
              (DataCache.mkEntry EmptyString (Scenario.t0 + 100)
                 (Scenario.t0 + 100 + 300000))) as [Hbegin Hcalls].
  - vm_compute. reflexivity.
  - simpl. lia.
  - reflexivity.
  - reflexivity.
  - vm_compute. discriminate.
  - rewrite Hbegin. cbn [snd]. rewrite Hcalls. reflexivity.
Defined.

Lemma refresh_always_fetches_witness :
  aborted 0 (snd (refresh Scenario.truthy Scenario.key (mkClosure true 0)
                    (Scenario.t0 + 50)
                    (snd (initial_load Scenario.truthy Scenario.key
                            (render Scenario.start) Scenario.t0 Scenario.t0
                            Scenario.start))))
  = true.
Proof.
  apply (refresh_always_fetches Scenario.truthy Scenario.key (mkClosure true 0)
           (Scenario.t0 + 50)
           (snd (initial_load Scenario.truthy Scenario.key
                   (render Scenario.start) Scenario.t0 Scenario.t0 Scenario.start))).
  - reflexivity.
  - vm_compute. lia.
Defined.

Lemma on_focus_skips_witness :
  on_focus Scenario.truthy Scenario.key Scenario.defaults (mkClosure false 0)
    (Scenario.t0 + 200) (Scenario.t0 + 200) (Scenario.t0 + 200) Scenario.loaded
  = (Returned None, Scenario.loaded).
Proof.
  apply (on_focus_skips Scenario.truthy Scenario.key Scenario.defaults (mkClosure false 0)
           (Scenario.t0 + 200) (Scenario.t0 + 200) (Scenario.t0 + 200) Scenario.loaded)
    with (e := DataCache.mkEntry "meals"%string (Scenario.t0 + 100)
                 (Scenario.t0 + 100 + 300000)).
  - vm_compute. reflexivity.
  - simpl. lia.
  - reflexivity.
Defined.

Lemma fetchData_touches_own_key_only_witness :
  globalCache
    (snd (fetchData_settle Scenario.key Scenario.defaults
            (mkPending (mkClosure false 0) Scenario.t0 0) (Resolves "meals"%string)
            (Scenario.t0 + 100) (Scenario.t0 + 100) Scenario.start)) !! "profile"
  = globalCache Scenario.start !! "profile".
Proof.
  apply (fetchData_touches_own_key_only Scenario.truthy Scenario.key Scenario.defaults
           "profile" (mkClosure false 0) false Scenario.t0 Scenario.t0
           (mkPending (mkClosure false 0) Scenario.t0 0) (Resolves "meals"%string)
           (Scenario.t0 + 100) (Scenario.t0 + 100) Scenario.start).
  discriminate.
Defined.

Lemma loading_closure_never_fetches_witness :
  fetchFn_calls
    (snd (fetchData_begin Scenario.truthy Scenario.key (mkClosure true 0) false
            (Scenario.t0 + 50) (Scenario.t0 + 50)
            (snd (initial_load Scenario.truthy Scenario.key
                    (render Scenario.start) Scenario.t0 Scenario.t0 Scenario.start))))
  = 1%nat.
Proof.
  destruct (loading_closure_never_fetches Scenario.truthy Scenario.key (mkClosure true 0)
              (Scenario.t0 + 50) (Scenario.t0 + 50)
              (snd (initial_load Scenario.truthy Scenario.key
                      (render Scenario.start) Scenario.t0 Scenario.t0 Scenario.start)))
    as (_ & Hcalls & _).
  - reflexivity.
  - rewrite Hcalls. reflexivity.
Defined.

End HookExtraWitnesses.

(** * Properties of [useNetworkStatus] *)

Section NetworkStatus.
Import useNetworkStatus.

Lemma step_mirrors (s : State) (e : Event) :
  isOnline (step s e) = isConnected (networkState (step s e)).
Proof. destruct e; reflexivity. Qed.

(** X16 - [isOnline] mirrors [networkState.isConnected].  After any
    sequence of status updates, whether they come from the browser, from
    NetInfo or from the fallback taken when NetInfo is missing, the two
    cells hold the same value; they do in the initial state too. *)
Theorem isOnline_mirrors_isConnected (events : list Event) :
  isOnline (run events) = isConnected (networkState (run events)).
Proof.
  unfold run. induction events as [|e events IH] using rev_ind; [reflexivity|].
  rewrite foldl_app. cbn [foldl]. apply step_mirrors.
Qed.

(** X17 - [waitForConnection].  Called by a render that saw the network
    connected, it resolves [true] at once.  Called by a render that saw
    it disconnected, it never resolves [true]: it resolves [false] at
    the first run of its interval that finds more than [timeout] ms
    (10000 when none is given) elapsed since the call, and is pending
    until then. *)
Theorem waitForConnection_result (connected : bool) (timeout : option Z)
    (startTime : Z) (ticks : list Z) :
  waitForConnection connected timeout startTime ticks
  = if connected then Some true
    else if existsb (fun now => now - startTime >? default 10000 timeout) ticks
         then Some false
         else None.
Proof.
  unfold waitForConnection. destruct connected; [reflexivity|].
  induction ticks as [|now ticks IH]; [reflexivity|].
  cbn [poll existsb interval_tick].
  destruct (now - startTime >? default 10000 timeout); [reflexivity|exact IH].
Qed.

End NetworkStatus.

(** * Properties of [useErrorHandler] *)

Section ErrorHandler.
Import useErrorHandler.
Context {Callback : Type}.
Variable t : string -> string.

(** X18 - the buttons of the error alert.  The alert of [handleError]
    always ends with the OK button, which does nothing.  It offers a
    button with an action exactly when a retry callback is given and the
    error is an [APIError] marked retryable; that button is then the
    first one and its action is the callback. *)
Theorem handleError_buttons (error : Thrown) (context : option string)
    (onRetry : option Callback) :
  let ok := mkButton (t "common.ok") None (Some Default) in
  exists bs,
    buttons (snd (handleError t error context onRetry)) = Some bs /\
    last bs = Some ok /\
    ((exists b, b ∈ bs /\ is_Some (onPress b))
     <-> (is_Some onRetry /\ exists status message, error = APIError status message true)) /\
    (forall b retry, b ∈ bs -> onPress b = Some retry ->
       onRetry = Some retry /\ head bs = Some b /\ text b = t "common.retry").
Proof.
  cbn zeta. unfold handleError. cbn [snd buttons].
  destruct onRetry as [retry|]; destruct error as [status message [|]|message|];
    eexists; (split; [reflexivity|]); (split; [reflexivity|]); split;
    try (split;
         [ intros (b & Hb & Hp); apply list_elem_of_In in Hb; cbn in Hb;
           destruct Hb as [<-|[]]; cbn in Hp; destruct Hp as [x Hx]; discriminate
         | intros [[x Hx] (st & m & He)]; discriminate ]);
    try (intros b r Hb Hp; apply list_elem_of_In in Hb; cbn in Hb;
         destruct Hb as [<-|[]]; cbn in Hp; discriminate).
  - split.
    + intros _. split; [eauto|]. eauto.
    + intros _. eexists. split; [apply list_elem_of_here|]. cbn. eauto.
  - intros b r Hb Hp. apply list_elem_of_In in Hb. cbn in Hb.
    destruct Hb as [<-|[<-|[]]]; cbn in Hp; [|discriminate].
    injection Hp as <-. repeat split.
Qed.

(** X19 - the message of the error alert.  For an [APIError] whose
    status is 401, 403, 404, 429 or 500 the message shown is fixed by
    the status and owes nothing to the message of the error; for every
    other [APIError] and for every other [Error] it is the message of
    the error; only a value that is not an [Error] gets the translated
    network-error text.  The title is always the translated
    [common.error]. *)
Theorem handleError_message (context : option string) (onRetry : option Callback) :
  (forall status m m' r r',
     status ∈ [401; 403; 404; 429; 500] ->
     message (snd (handleError t (APIError (Some status) m r) context onRetry))
     = message (snd (handleError t (APIError (Some status) m' r') context onRetry))) /\
  (forall status m r,
     (forall n, status = Some n -> n ∉ [401; 403; 404; 429; 500]) ->
     message (snd (handleError t (APIError status m r) context onRetry)) = m) /\
  (forall m, message (snd (handleError t (Error m) context onRetry)) = m) /\
  message (snd (handleError t Other context onRetry)) = t "common.network_error" /\
  (forall error, title (snd (handleError t error context onRetry)) = t "common.error").
Proof.
  split; [|split; [|split; [|split]]].
  - intros status m m' r r' Hin. unfold handleError. cbn [snd message].
    repeat (apply elem_of_cons in Hin as [->|Hin]; [reflexivity|]).
    apply elem_of_nil in Hin. destruct Hin.
  - intros status m r Hnot. unfold handleError. cbn [snd message].
    destruct status as [n|]; [|reflexivity].
    specialize (Hnot n eq_refl).
    assert (H401 : n <> 401) by (intros ->; apply Hnot; set_solver).
    assert (H403 : n <> 403) by (intros ->; apply Hnot; set_solver).
    assert (H404 : n <> 404) by (intros ->; apply Hnot; set_solver).
    assert (H429 : n <> 429) by (intros ->; apply Hnot; set_solver).
    assert (H500 : n <> 500) by (intros ->; apply Hnot; set_solver).
    unfold status_message.
    repeat match goal with
           | |- context [match ?x with _ => _ end] => destruct x; try reflexivity; try lia
           end.
  - reflexivity.
  - reflexivity.
  - intros error. reflexivity.
Qed.

End ErrorHandler.

(** * Properties of [OptimizedImage] *)

Section Image.
Import OptimizedImage.

Lemma handle_not_loading_and_error (p : Props) (e : Event) (s : State) :
  isLoading (fst (handle p e s)) && hasError (fst (handle p e s)) = false.
Proof.
  destruct e; cbn [handle]; try reflexivity.
  unfold handleError. destruct (tries_fallback p s); reflexivity.
Qed.

(** X20 - never loading and failed at once.  From its initial state and
    through any sequence of load events and presses on the retry button,
    under any props, the component never has [isLoading] and [hasError]
    both true. *)
Theorem never_loading_and_error (p0 : Props) (events : list (Props * Event)) :
  isLoading (run events (initial p0)) && hasError (run events (initial p0)) = false.
Proof.
  assert (H : forall s, isLoading s && hasError s = false ->
                        isLoading (run events s) && hasError (run events s) = false).
  { induction events as [|[p e] events IH]; intros s Hs; [exact Hs|].
    cbn [run]. apply IH, handle_not_loading_and_error. }
  apply H. reflexivity.
Qed.

Lemma handle_in_retryCount_positive (p : Props) (e : Event) (seen s : State) :
  (1 <= retryCount s)%nat -> (1 <= retryCount (fst (handle_in p e seen s)))%nat.
Proof.
  intros Hs. destruct e; cbn [handle_in]; cbn; try exact Hs; try lia.
  unfold handleError_in. destruct (tries_fallback p seen); cbn; [lia|exact Hs].
Qed.

Lemma tries_fallback_needs_zero (p : Props) (s : State) (f : Source) :
  tries_fallback p s = Some f -> retryCount s = 0%nat.
Proof.
  unfold tries_fallback. destruct (fallbackSource p) as [g|]; [|discriminate].
  destruct (Nat.eqb_spec (retryCount s) 0) as [Hz|Hnz]; [intros _; exact Hz|].
  rewrite andb_false_r. discriminate.
Qed.

Lemma tries_fallback_positive (p : Props) (s : State) :
  (1 <= retryCount s)%nat -> tries_fallback p s = None.
Proof.
  intros Hs. destruct (tries_fallback p s) as [f|] eqn:Hf; [|reflexivity].
  apply tries_fallback_needs_zero in Hf. lia.
Qed.

(** Once a render has seen [retryCount >= 1], no load error switches to
    the fallback any more. *)
Lemma no_switch_once_seen (steps : list Step) (seen s : State) :
  (1 <= retryCount seen)%nat -> (1 <= retryCount s)%nat ->
  fallback_switches_in steps seen s = 0%nat.
Proof.
  revert seen s. induction steps as [|st steps IH]; intros seen s Hseen Hs;
    [reflexivity|].
  cbn [fallback_switches_in].
  assert (Hseen' : (1 <= retryCount (closure_of st seen s))%nat)
    by (unfold closure_of; destruct (rendered st); assumption).
  rewrite (tries_fallback_positive _ _ Hseen').
  rewrite (IH _ _ Hseen' (handle_in_retryCount_positive _ _ _ s Hs)).
  destruct (event st); reflexivity.
Qed.

(** With a render before every event, a positive [retryCount] is seen by
    every handler that follows. *)
Lemma no_switch_when_rendered (steps : list Step) (seen s : State) :
  forallb rendered steps = true -> (1 <= retryCount s)%nat ->
  fallback_switches_in steps seen s = 0%nat.
Proof.
  revert seen s. induction steps as [|st steps IH]; intros seen s Hall Hs;
    [reflexivity|].
  cbn [forallb] in Hall. apply andb_true_iff in Hall as [Hst Hall].
  cbn [fallback_switches_in]. unfold closure_of. rewrite Hst.
  rewrite (tries_fallback_positive _ _ Hs).
  rewrite (IH _ _ Hall (handle_in_retryCount_positive _ _ _ s Hs)).
  destruct (event st); reflexivity.
Qed.

(** X21 - how often the fallback is tried.  A load error is answered by
    switching to the fallback source only through a handler whose
    render saw [retryCount = 0].  So when a render takes place before
    every event, at most one load error of a run from the initial state
    is answered so, under any props; and once a render has seen
    [retryCount >= 1], none is any more.  Without a render in between,
    two load errors received by the handler of one render both switch:
    a run with two switches exists. *)
Theorem fallback_switches_bounded :
  (forall p seen s f, fst (handleError_in p seen s) = mkState true false 1 f ->
     tries_fallback p seen = Some f -> retryCount seen = 0%nat) /\
  (forall p0 steps, forallb rendered steps = true ->
     (fallback_switches_in steps (initial p0) (initial p0) <= 1)%nat) /\
  (forall steps seen s, (1 <= retryCount seen)%nat -> (1 <= retryCount s)%nat ->
     fallback_switches_in steps seen s = 0%nat) /\
  (exists p0 p,
     fallback_switches_in [mkStep true p LoadError; mkStep false p LoadError]
       (initial p0) (initial p0) = 2%nat).
Proof.
  split; [|split; [|split]].
  - intros p seen s f _ Hf. apply (tries_fallback_needs_zero p seen f Hf).
  - intros p0 steps. generalize (initial p0) at 2. generalize (initial p0).
    induction steps as [|st steps IH]; intros seen s Hall; [cbn; lia|].
    cbn [forallb] in Hall. apply andb_true_iff in Hall as [Hst Hall].
    cbn [fallback_switches_in]. unfold closure_of. rewrite Hst.
    destruct (event st) eqn:He; try (cbn [Nat.add]; apply IH, Hall).
    destruct (tries_fallback (props st) s) as [f|] eqn:Hf;
      [|cbn [Nat.add]; apply IH, Hall].
    rewrite no_switch_when_rendered; [lia|exact Hall|].
    cbn [handle_in]. unfold handleError_in. rewrite Hf. cbn. lia.
  - apply no_switch_once_seen.
  - exists Cases.meal_image, Cases.meal_image. reflexivity.
Qed.

(** X22 - a failing fallback surfaces.  A load error received by a
    handler whose render saw [retryCount >= 1] sets [hasError], calls
    [onError] if it is given, leaves the current source and
    [retryCount] as they are, and the error view is what is rendered.
    Such is the load error that follows a switch to the fallback, once
    a render has seen the switch. *)
Theorem seen_retry_surfaces (p : Props) (seen s : State) :
  (1 <= retryCount seen)%nat ->
  (handleError_in p seen s
   = (mkState false true (retryCount s) (currentSource s),
      optional_call (onError p) CallOnError) /\
   renderContent p (fst (handleError_in p seen s))
   = ErrorView (default true (showRetry p))) /\
  (forall p0 seen0 s0 f,
     tries_fallback p0 seen0 = Some f ->
     handleError_in p0 seen0 s0 = (mkState true false 1 f, []) /\
     handleError_in p (fst (handleError_in p0 seen0 s0)) (fst (handleError_in p0 seen0 s0))
     = (mkState false true 1 f, optional_call (onError p) CallOnError)).
Proof.
  intros Hseen. split.
  - unfold handleError_in. rewrite (tries_fallback_positive p seen Hseen).
    split; reflexivity.
  - intros p0 seen0 s0 f Hf.
    assert (H1 : handleError_in p0 seen0 s0 = (mkState true false 1 f, []))
      by (unfold handleError_in; rewrite Hf; reflexivity).
    split; [exact H1|]. rewrite H1. cbn [fst].
    unfold handleError_in. rewrite tries_fallback_positive by (cbn; lia).
    reflexivity.
Qed.

Lemma fallback_switches_bounded_witness :
  (fallback_switches_in
     [mkStep true Cases.meal_image LoadError; mkStep true Cases.meal_image LoadError;
      mkStep true Cases.meal_image RetryPressed; mkStep true Cases.meal_image LoadError]
     (initial Cases.meal_image) (initial Cases.meal_image) <= 1)%nat.
Proof.
  apply fallback_switches_bounded. reflexivity.
Defined.

Lemma seen_retry_surfaces_witness :
  renderContent Cases.meal_image
    (fst (handleError_in Cases.meal_image
            (mkState true false 1 (Asset 7)) (mkState true false 1 (Asset 7))))
  = ErrorView true.
Proof.
  apply (seen_retry_surfaces Cases.meal_image
           (mkState true false 1 (Asset 7)) (mkState true false 1 (Asset 7))).
  simpl. lia.
Defined.

End Image.

Section StaleEntries.
Import useOptimizedData.
Context {T : Type}.
Variable truthy : T -> bool.
Variable key : string.
Implicit Types (w : World T) (cl : Closure).

(** X23 - a stale entry is fetched again.  When the cache holds nothing
    under the key, or an entry that has expired, a call of [fetchData]
    that is not forced, made through a closure that saw no loading and
    at least a second after the last fetch, invokes [fetchFn]; the hook
    is then loading and the cache holds nothing under the key. *)
Theorem stale_entry_refetched cl (now now_get : Z) w :
  seen_isLoading cl = false ->
  1000 <= now - lastFetchRef w ->
  (globalCache w !! key = None \/
   exists e, globalCache w !! key = Some e /\ now_get > DataCache.expiresAt e) ->
  exists w',
    fetchData_begin truthy key cl false now now_get w
    = (Awaiting (mkPending cl now (length (controllers w))), w') /\
    fetchFn_calls w' = S (fetchFn_calls w) /\
    isLoading (state w') = true /\
    globalCache w' !! key = None.
Proof.
  intros Hl Hrate Hstale.
  assert (Hcheck : exists c,
             check_cache truthy key false now_get w = (None, set_globalCache c w) /\
             c !! key = None).
  { unfold check_cache, DataCache.get. destruct Hstale as [Hnone|(e & He & Hexp)].
    - rewrite Hnone. exists (globalCache w). split; [reflexivity|exact Hnone].
    - rewrite He. destruct (Z.gtb_spec now_get (DataCache.expiresAt e)); [|lia].
      exists (delete key (globalCache w)). split; [reflexivity|apply lookup_delete_eq]. }
  destruct Hcheck as (c & Hcheck & Hc).
  unfold fetchData_begin. rewrite Hcheck, Hl. cbn [andb negb lastFetchRef set_globalCache].
  destruct (Z.ltb_spec (now - lastFetchRef w) 1000); [lia|].
  eexists. split; [reflexivity|].
  rewrite issue_fetchFn_calls, issue_isLoading, issue_globalCache.
  repeat split. exact Hc.
Qed.

End StaleEntries.

Lemma stale_entry_refetched_witness :
  exists w',
    useOptimizedData.fetchData_begin Scenario.truthy Scenario.key
      (useOptimizedData.mkClosure false 0) false
      (Scenario.t0 + 600000) (Scenario.t0 + 600000) Scenario.loaded
    = (useOptimizedData.Awaiting
         (useOptimizedData.mkPending (useOptimizedData.mkClosure false 0)
            (Scenario.t0 + 600000)
            (length (useOptimizedData.controllers Scenario.loaded))), w') /\
    useOptimizedData.fetchFn_calls w' = 2%nat /\
    useOptimizedData.isLoading (useOptimizedData.state w') = true /\
    useOptimizedData.globalCache w' !! Scenario.key = None.
Proof.
  apply (stale_entry_refetched Scenario.truthy Scenario.key
           (useOptimizedData.mkClosure false 0)
           (Scenario.t0 + 600000) (Scenario.t0 + 600000) Scenario.loaded).
  - reflexivity.
  - vm_compute. discriminate.
  - right. exists (DataCache.mkEntry "meals"%string (Scenario.t0 + 100)
                     (Scenario.t0 + 100 + 300000)).
    split; [vm_compute; reflexivity | simpl; lia].
Defined.

(** * An invariant of the runs of the hook *)

Section HookInvariant.
Import useOptimizedData.
Context {T : Type}.
Variable truthy : T -> bool.
Variable key : string.
Variable options : Options.
Implicit Types (w : World T) (cl : Closure).

Lemma controllers_ok_frame w w' :
  controllers w' = controllers w ->
  fetchFn_calls w' = fetchFn_calls w ->
  abortControllerRef w' = abortControllerRef w \/ abortControllerRef w' = None ->
  HookRun.controllers_ok w -> HookRun.controllers_ok w'.
Proof.
  intros Hc Hf Hr [Hlen Href]. unfold HookRun.controllers_ok. rewrite Hc, Hf.
  split; [exact Hlen|]. intros c Hsome. destruct Hr as [Hr|Hr]; rewrite Hr in Hsome.
  - apply Href, Hsome.
  - discriminate.
Qed.

Lemma controllers_ok_issue w : HookRun.controllers_ok w -> HookRun.controllers_ok (issue w).
Proof.
  intros [Hlen Href]. unfold HookRun.controllers_ok.
  rewrite issue_token, issue_fetchFn_calls.
  assert (Hl : length (controllers (issue w)) = S (length (controllers w))).
  { unfold issue, abort_current. cbn. destruct (abortControllerRef w); cbn;
      rewrite length_app; [rewrite length_insert|]; cbn; lia. }
  rewrite Hl. split; [lia|]. intros c [= <-]. lia.
Qed.

Lemma controllers_ok_begin cl (force : bool) (now now_get : Z) w :
  HookRun.controllers_ok w ->
  HookRun.controllers_ok (snd (fetchData_begin truthy key cl force now now_get w)).
Proof.
  intros Hok. unfold fetchData_begin.
  destruct (check_cache_frame truthy key force now_get w) as [c Hc].
  assert (Hok1 : HookRun.controllers_ok (set_globalCache c w))
    by (apply (controllers_ok_frame w); auto).
  destruct (check_cache truthy key force now_get w) as [[v|] w1];
    cbn [snd] in Hc; subst w1; cbn [snd].
  - apply (controllers_ok_frame (set_globalCache c w)); auto.
  - destruct (seen_isLoading cl && negb force); [exact Hok1|].
    destruct (negb force && _); [exact Hok1|].
    cbn [snd]. apply controllers_ok_issue, Hok1.
Qed.

Lemma controllers_ok_act (a : HookRun.Action (T := T)) w :
  HookRun.controllers_ok w -> HookRun.controllers_ok (HookRun.act truthy key options w a).
Proof.
  intros Hok. destruct a as [cl force now g|p out ts te|cl now| |cl np now g|tm now|now| ];
    cbn [HookRun.act].
  - apply controllers_ok_begin, Hok.
  - unfold fetchData_settle. destruct out as [result|err]; cbn [snd].
    + apply (controllers_ok_frame w); auto.
    + destruct (opt_retryOnError options && _);
        apply (controllers_ok_frame w); auto.
  - unfold refresh. apply controllers_ok_begin.
    apply (controllers_ok_frame w); auto.
  - apply (controllers_ok_frame w); auto.
  - unfold on_focus. destruct (opt_refreshOnFocus options); [|exact Hok].
    destruct (DataCache.get np key (globalCache w)) as [cached c].
    assert (Hok1 : HookRun.controllers_ok (set_globalCache c w))
      by (apply (controllers_ok_frame w); auto).
    destruct cached as [v|]; [destruct (truthy v)|];
      try exact Hok1; apply controllers_ok_begin, Hok1.
  - unfold fire. apply controllers_ok_begin, Hok.
  - apply (controllers_ok_frame w); auto.
  - unfold unmount, abort_current. destruct Hok as [Hlen Href].
    destruct (abortControllerRef w) as [c|] eqn:Hc; [|split; [exact Hlen|]; rewrite Hc; exact Href].
    unfold HookRun.controllers_ok. cbn. rewrite length_insert, Hc.
    split; [exact Hlen|exact Href].
Qed.

(** X24 - one controller for each fetch.  At every point of every run
    of a mounted hook, the number of [AbortController]s created is the
    number of [fetchFn] invocations made, and [abortControllerRef], when
    it is not [null], refers to one of the controllers created. *)
Theorem one_controller_per_fetch (actions : list (HookRun.Action (T := T))) :
  let w := HookRun.run truthy key options actions in
  length (controllers w) = fetchFn_calls w /\
  forall c, abortControllerRef w = Some c -> (c < length (controllers w))%nat.
Proof.
  cbn zeta. change (HookRun.controllers_ok (HookRun.run truthy key options actions)).
  unfold HookRun.run.
  induction actions as [|a actions IH] using rev_ind.
  - split; [reflexivity|]. intros c. discriminate.
  - rewrite foldl_app. cbn [foldl]. apply controllers_ok_act, IH.
Qed.

End HookInvariant.

(** * A failing fetch on a mounted hook *)

Section MountedFailing.
Import useOptimizedData.
Context {T : Type}.
Variable truthy : T -> bool.
Variable key : string.
Variable options : Options.
Implicit Types (w : World T) (cl : Closure).

Lemma begin_miss cl (now now_get : Z) w :
  globalCache w !! key = None ->
  fetchData_begin truthy key cl false now now_get w
  = if seen_isLoading cl then (Returned None, w)
    else if now - lastFetchRef w <? 1000 then (Returned None, w)
    else (Awaiting (mkPending cl now (length (controllers w))), issue w).
Proof.
  intros Hnone. unfold fetchData_begin, check_cache, DataCache.get.
  rewrite Hnone, set_globalCache_same. cbn [negb]. rewrite andb_true_r.
  destruct (seen_isLoading cl); reflexivity.
Qed.

(** The renders that follow a rejection issue one fetch. *)
Lemma renders_at_rest (prev : option Closure) (now : Z) w :
  HookRun.at_rest key prev now w ->
  HookRun.renders truthy key prev now now w
  = (render (issue w), issue w, [mkPending (render w) now (length (controllers w))]).
Proof.
  intros (Hnone & Hidle & Hrate & Hprev).
  assert (Hfirst : HookRun.render_effect truthy key prev now now w
                   = (render w,
                      (Awaiting (mkPending (render w) now (length (controllers w))),
                       issue w))).
  { assert (Hcall : fetchData_begin truthy key (render w) false now now w
                    = (Awaiting (mkPending (render w) now (length (controllers w))),
                       issue w)).
    { rewrite (begin_miss _ _ _ _ Hnone).
      change (seen_isLoading (render w)) with (isLoading (state w)). rewrite Hidle.
      destruct (Z.ltb_spec (now - lastFetchRef w) 1000); [lia|reflexivity]. }
    unfold HookRun.render_effect.
    destruct Hprev as [->|(old & -> & Hold)]; [rewrite Hcall; reflexivity|].
    unfold HookRun.same_closure.
    change (seen_isLoading (render w)) with (isLoading (state w)).
    rewrite Hold, Hidle. cbn [Bool.eqb andb]. rewrite Hcall. reflexivity. }
  assert (Hsame : HookRun.same_closure (render w) (render (issue w)) = false).
  { unfold HookRun.same_closure.
    change (seen_isLoading (render w)) with (isLoading (state w)).
    change (seen_isLoading (render (issue w))) with (isLoading (state (issue w))).
    rewrite Hidle, issue_isLoading. reflexivity. }
  unfold HookRun.renders. rewrite Hfirst.
  unfold HookRun.render_effect. rewrite Hsame.
  rewrite begin_miss by (rewrite issue_globalCache; exact Hnone).
  change (seen_isLoading (render (issue w))) with (isLoading (state (issue w))).
  rewrite issue_isLoading. reflexivity.
Qed.

Lemma mounted_failing_at_rest (n : nat) (err : Thrown) (latency : Z) :
  opt_retryOnError options = false ->
  0 <= latency ->
  forall (prev : option Closure) (now : Z) w,
    HookRun.at_rest key prev now w ->
    let w' := HookRun.mounted_failing truthy key options n err latency prev now w in
    fetchFn_calls w' = (fetchFn_calls w + n)%nat /\
    timers w' = timers w /\
    retryCount (state w') = retryCount (state w) /\
    lastFetchRef w' = lastFetchRef w.
Proof.
  intros Hoff Hlat. induction n as [|n IH]; intros prev now w Hrest; cbn zeta.
  - cbn [HookRun.mounted_failing]. repeat split; lia.
  - cbn [HookRun.mounted_failing]. rewrite (renders_at_rest prev now w Hrest).
    destruct Hrest as (Hnone & Hidle & Hrate & Hprev).
    set (w2 := snd (fetchData_settle key options
                      (mkPending (render w) now (length (controllers w)))
                      (Rejects err) (now + latency) (now + latency) (issue w))).
    assert (Hw2 : w2 = finally (setError (Some (errorMessage err)) (issue w))).
    { unfold w2, fetchData_settle. cbn [snd]. rewrite Hoff. reflexivity. }
    destruct (IH (Some (render (issue w))) (now + latency) w2) as (H1 & H2 & H3 & H4).
    { rewrite Hw2. split; [|split; [reflexivity|split]].
      - change (globalCache (issue w) !! key = None).
        rewrite issue_globalCache. exact Hnone.
      - change (1000 <= now + latency - lastFetchRef (issue w)).
        rewrite issue_lastFetchRef. lia.
      - right. eexists. split; [reflexivity|]. cbn [render seen_isLoading].
        apply issue_isLoading. }
    rewrite H1, H2, H3, H4, Hw2.
    change (fetchFn_calls (finally (setError (Some (errorMessage err)) (issue w))))
      with (fetchFn_calls (issue w)).
    change (timers (finally (setError (Some (errorMessage err)) (issue w))))
      with (timers (issue w)).
    change (retryCount (state (finally (setError (Some (errorMessage err)) (issue w)))))
      with (retryCount (state (issue w))).
    change (lastFetchRef (finally (setError (Some (errorMessage err)) (issue w))))
      with (lastFetchRef (issue w)).
    rewrite issue_fetchFn_calls, issue_timers, issue_retryCount, issue_lastFetchRef.
    repeat split. lia.
Qed.

(** X12 - switching the retries off does not stop a failing hook.  With
    [retryOnError] false a rejection sets no timer and leaves
    [retryCount] at 0; but it ends the loading, the render that follows
    builds a new [fetchData], the initial-load effect calls it, and as a
    rejection does not write [lastFetchRef] the call fetches again.
    Following that effect alone: for every [n], [n] rejections come
    with [n] invocations of [fetchFn], and no timer. *)
Theorem failing_hook_refetches_without_timers (n : nat) (err : Thrown)
    (latency now : Z) :
  opt_retryOnError options = false ->
  0 <= latency ->
  1000 <= now ->
  let w := HookRun.mounted_failing truthy key options n err latency None now initial in
  fetchFn_calls w = n /\
  timers w = [] /\
  retryCount (state w) = 0%nat /\
  lastFetchRef w = 0.
Proof.
  intros Hoff Hlat Hnow. cbn zeta.
  destruct (mounted_failing_at_rest n err latency Hoff Hlat None now initial)
    as (H1 & H2 & H3 & H4).
  - split; [apply lookup_empty|]. split; [reflexivity|].
    split; [cbn; lia | left; reflexivity].
  - rewrite H1, H2, H3, H4. repeat split.
Qed.

End MountedFailing.

Lemma failing_hook_refetches_without_timers_witness :
  useOptimizedData.fetchFn_calls
    (HookRun.mounted_failing Scenario.truthy Scenario.key Cases.no_retry 5
       Scenario.boom 100 None Scenario.t0 useOptimizedData.initial)
  = 5%nat.
Proof.
  apply (failing_hook_refetches_without_timers Scenario.truthy Scenario.key
           Cases.no_retry 5 Scenario.boom 100 Scenario.t0).
  - reflexivity.
  - lia.
  - unfold Scenario.t0. lia.
Defined.
